(** * SimpleURemote 1.0: the capture-and-replay sketch, embedded and verified

    The sketch (SimpleURemote1.0.cpp) is an Arduino program: [setup], an
    endlessly repeated [loop], and the helper [blinkled].  It talks to the
    IRremoteESP8266 library (the receiver object [irrecv], the transmitter
    object [irsend], a few helper functions), to the GPIO lines and to the
    serial port.

    The embedding is a state monad over a [World]: the sketch's globals, the
    state of the two library objects, the output lines and the chronological
    trace of everything the sketch asked its collaborators to do.  The
    library is not part of the sketch; it enters as three interfaces
    ([IRrecv], [IRsend], [IRutils]) and the few facts about the receiver
    that the sketch relies on are the class [IRrecvLaws]. *)

From Stdlib Require Import ZArith String List Lia Bool.
From stdpp Require Import base option list gmap.
Import ListNotations.

Local Open Scope Z_scope.

(** ** Constants of the sketch (lines 47-92) and of Arduino.h *)

Definition LOW : Z := 0.
Definition HIGH : Z := 1.

Definition led_pin : Z := 5.
Definition kIrLedPin : Z := 4.
Definition kRecvPin : Z := 14.
Definition button1_pin : Z := 12.
Definition button2_pin : Z := 13.
Definition kFrequency : Z := 38000.

(** ** Data of the library that the sketch handles *)

(** [decode_type_t] is the library's protocol enumeration, an [int]. *)
Definition decode_type_t : Type := Z.

(** Modelled from the spec: the library's [decode_results] class (IRrecv.h
    is not in the repository), with what section 6 says a decode result
    exposes: the protocol identifier, the bit-width ([uint16_t]), the
    numeric value ([uint64_t]), the extended byte state ([uint8_t] array)
    and the raw timing buffer the raw accessors read. *)
Record decode_results : Type := mk_results {
  decode_type : decode_type_t;
  value : Z;
  bits : Z;
  state : list Z;
  rawbuf : list Z
}.

(** The three ways the sketch calls the transmitter (lines 218, 228, 234). *)
Inductive TxCall : Type :=
| TxRaw (buf : list Z) (len hz : Z)
| TxState (protocol : decode_type_t) (st : list Z) (nbytes : Z)
| TxValue (protocol : decode_type_t) (data nbits : Z).

(** Everything the sketch asks of the outside, in the order it asks. *)
Inductive Event : Type :=
| SerialPrintln (s : string)
| SerialPrint (s : string)
| DigitalWrite (pin level : Z)
| Delay (ms : Z)
| EnableIRIn
| Decode (got : bool)
| IRsendCall (c : TxCall).

(** ** The collaborators, as interfaces *)

(** The receiver object [irrecv].  [decode] is [irrecv.decode(&results)]:
    [Some d] when it returns true and has filled [results] with [d],
    [None] when it returns false.  [elapse ms] is what the receiver's
    interrupt handler makes of [ms] milliseconds of [delay]; the receiver
    changes only there and in the two calls above. *)
Class IRrecv (R : Type) : Type := {
  enableIRIn : R -> R;
  decode : R -> option decode_results * R;
  elapse : Z -> R -> R
}.

(** The transmitter object [irsend]: [sendRaw] returns nothing, the two
    overloads of [send] return the library's success flag. *)
Class IRsend (T : Type) : Type := {
  sendRaw : list Z -> Z -> Z -> T -> T;
  send_state : decode_type_t -> list Z -> Z -> T -> bool * T;
  send_value : decode_type_t -> Z -> Z -> T -> bool * T
}.

(** The helpers of IRutils.h / IRremoteESP8266.h the sketch calls, and the
    enumerator [decode_type_t::UNKNOWN]. *)
Class IRutils : Type := {
  UNKNOWN : decode_type_t;
  hasACState : decode_type_t -> bool;
  resultToRawArray : decode_results -> list Z;
  getCorrectedRawLength : decode_results -> Z;
  resultToHumanReadableBasic : decode_results -> string
}.

(** What the sketch relies on from the receiver: asking again without
    waiting gives the same answer; a message that is held stays held while
    time passes (the library ignores the line until it is resumed); arming
    starts from an empty receiver. *)
Class IRrecvLaws (R : Type) `{IRrecv R} : Prop := {
  decode_again : forall r : R, (decode (decode r).2).1 = (decode r).1;
  elapse_keeps : forall (t : Z) (r : R) (d : decode_results),
    (decode r).1 = Some d -> (decode (elapse t r)).1 = Some d;
  enable_clears : forall r : R, (decode (enableIRIn r)).1 = None
}.

(** ** The world and the sketch monad *)

(** The four button globals (lines 87-92). *)
Record Buttons : Type := mk_buttons {
  button1_state : Z;
  button2_state : Z;
  button1_prev : Z;
  button2_prev : Z
}.

Declare Scope sketch_scope.
Delimit Scope sketch_scope with sketch.

Section Sketch.

Context {R T : Type} `{IRrecv R} `{IRsend T} `{IRutils}.

Record World : Type := mk_world {
  btn : Buttons;
  results : decode_results;
  irrecv : R;
  irsend : T;
  gpio : gmap Z Z;
  trace : list Event
}.

Definition Sketch (A : Type) : Type := World -> A * World.

Definition ret {A : Type} (a : A) : Sketch A := fun w => (a, w).

Definition bind {A B : Type} (c : Sketch A) (k : A -> Sketch B) : Sketch B :=
  fun w => let (a, w1) := c w in k a w1.

Bind Scope sketch_scope with Sketch.

Notation "x <- c ;; k" := (bind c (fun x => k))
  (at level 100, c at level 99, k at level 200, right associativity)
  : sketch_scope.
Notation "c ;; k" := (bind c (fun _ => k))
  (at level 100, k at level 200, right associativity) : sketch_scope.

Local Open Scope sketch_scope.

Definition exec {A : Type} (c : Sketch A) (w : World) : World := (c w).2.

(** *** Primitive actions

    Arguments are taken as the sketch passes them: a [pin] is a line
    number (0 to 255) and a [delay] is not negative; outside these ranges
    the C conversions of [digitalWrite] and [delay] would change the value
    and the model is not meant.  When [decode] returns false the model
    leaves [results] alone; the sketch never reads [results] in that
    case. *)

Definition emit (e : Event) (w : World) : World :=
  mk_world (btn w) (results w) (irrecv w) (irsend w) (gpio w) (trace w ++ [e]).

Definition Serial_println (s : string) : Sketch unit :=
  fun w => (tt, emit (SerialPrintln s) w).

Definition Serial_print (s : string) : Sketch unit :=
  fun w => (tt, emit (SerialPrint s) w).

Definition digitalWrite (pin level : Z) : Sketch unit :=
  fun w => (tt, emit (DigitalWrite pin level)
    (mk_world (btn w) (results w) (irrecv w) (irsend w)
       (<[pin := level]> (gpio w)) (trace w))).

Definition delay (ms : Z) : Sketch unit :=
  fun w => (tt, emit (Delay ms)
    (mk_world (btn w) (results w) (elapse ms (irrecv w)) (irsend w)
       (gpio w) (trace w))).

Definition irrecv_enableIRIn : Sketch unit :=
  fun w => (tt, emit EnableIRIn
    (mk_world (btn w) (results w) (enableIRIn (irrecv w)) (irsend w)
       (gpio w) (trace w))).

Definition irrecv_decode : Sketch bool :=
  fun w =>
    match decode (irrecv w) with
    | (Some d, r) =>
        (true, emit (Decode true)
           (mk_world (btn w) d r (irsend w) (gpio w) (trace w)))
    | (None, r) =>
        (false, emit (Decode false)
           (mk_world (btn w) (results w) r (irsend w) (gpio w) (trace w)))
    end.

Definition irsend_sendRaw (buf : list Z) (len hz : Z) : Sketch unit :=
  fun w => (tt, emit (IRsendCall (TxRaw buf len hz))
    (mk_world (btn w) (results w) (irrecv w)
       (sendRaw buf len hz (irsend w)) (gpio w) (trace w))).

Definition irsend_send_state (p : decode_type_t) (st : list Z) (nbytes : Z)
  : Sketch bool :=
  fun w =>
    let (ok, t) := send_state p st nbytes (irsend w) in
    (ok, emit (IRsendCall (TxState p st nbytes))
       (mk_world (btn w) (results w) (irrecv w) t (gpio w) (trace w))).

Definition irsend_send_value (p : decode_type_t) (data nbits : Z)
  : Sketch bool :=
  fun w =>
    let (ok, t) := send_value p data nbits (irsend w) in
    (ok, emit (IRsendCall (TxValue p data nbits))
       (mk_world (btn w) (results w) (irrecv w) t (gpio w) (trace w))).

Definition get_results : Sketch decode_results := fun w => (results w, w).

Definition get_buttons : Sketch Buttons := fun w => (btn w, w).

Definition set_buttons (b : Buttons) : Sketch unit :=
  fun w => (tt, mk_world b (results w) (irrecv w) (irsend w) (gpio w) (trace w)).

(** *** [blinkled] (lines 262-272)

    The loop runs [multiplier] times; note that the source switches the
    lamp on through [pin] and off through the global [led_pin]. *)
Fixpoint blink_iter (n : nat) (pin blink_delay : Z) : Sketch unit :=
  match n with
  | O => ret tt
  | S n' =>
      digitalWrite pin HIGH ;;
      delay blink_delay ;;
      digitalWrite led_pin LOW ;;
      delay blink_delay ;;
      blink_iter n' pin blink_delay
  end.

Definition blinkled (pin blink_delay multiplier : Z) : Sketch unit :=
  blink_iter (Z.to_nat multiplier) pin blink_delay.

(** *** The waiting loop (lines 163-171)

    [for (int i = 0; i < 20; i++)] with a [break]: the argument counts the
    iterations that are left. *)
Fixpoint wait_for_signal (left : nat) : Sketch unit :=
  match left with
  | O => ret tt
  | S left' =>
      Serial_println "waiting for signal..." ;;
      delay 500 ;;
      got <- irrecv_decode ;;
      if got then ret tt else wait_for_signal left'
  end.

(** *** Button 1 released: record (lines 147-189) *)
Definition loop_record : Sketch unit :=
  irrecv_enableIRIn ;;
  Serial_println "Recording IR-signal" ;;
  blinkled led_pin 500 1 ;;
  digitalWrite led_pin HIGH ;;
  wait_for_signal 20 ;;
  got <- irrecv_decode ;;
  if got then
    Serial_println "Got results!" ;;
    r <- get_results ;;
    Serial_print (resultToHumanReadableBasic r) ;;
    blinkled led_pin 50 5
  else
    Serial_println "You took too long! Nothing recorded." ;;
    digitalWrite led_pin LOW.

(** The text of [Serial.printf("Message %ssuccessfully retransmitted.\n", ...)]. *)
Definition newline : string := String (Ascii.ascii_of_nat 10) EmptyString.

Definition retransmitted_text (success : bool) : string :=
  ("Message " ++ (if success then "" else "un")
     ++ "successfully retransmitted." ++ newline)%string.

(** *** Button 2 released: send (lines 193-250)

    [size / 8] is C's integer division.  The raw array is allocated and
    freed around the call; only its contents matter here. *)
Definition loop_send : Sketch unit :=
  got <- irrecv_decode ;;
  if got then
    blinkled led_pin 30 3 ;;
    r <- get_results ;;
    let protocol := decode_type r in
    let size := bits r in
    success <-
      (if protocol =? UNKNOWN then
         let raw_array := resultToRawArray r in
         let size := getCorrectedRawLength r in
         irsend_sendRaw raw_array size kFrequency ;;
         ret true
       else if hasACState protocol then
         irsend_send_state protocol (state r) (size ÷ 8)
       else
         irsend_send_value protocol (value r) size) ;;
    Serial_println "Sending IR-signal" ;;
    r' <- get_results ;;
    Serial_print (resultToHumanReadableBasic r') ;;
    Serial_print (retransmitted_text success)
  else
    Serial_println "Nothing to send. Capture something first." ;;
    blinkled led_pin 600 2.

(** *** [loop] (lines 139-257)

    [read1] and [read2] are what the two calls of [digitalRead] return in
    this iteration. *)
Definition loop (read1 read2 : Z) : Sketch unit :=
  b <- get_buttons ;;
  set_buttons (mk_buttons read1 read2 (button1_prev b) (button2_prev b)) ;;
  b <- get_buttons ;;
  (if (button1_prev b =? LOW) && (button1_state b =? HIGH)
   then loop_record else ret tt) ;;
  b <- get_buttons ;;
  (if (button2_prev b =? LOW) && (button2_state b =? HIGH)
   then loop_send else ret tt) ;;
  b <- get_buttons ;;
  set_buttons (mk_buttons (button1_state b) (button2_state b)
                 (button1_state b) (button2_state b)).

(** ** Vocabulary of the statements *)

(** The remembered signal is what [irrecv.decode(&results)] would yield
    now; this is the test the sketch itself makes (lines 175, 195).
    [None] is the empty slot. *)
Definition remembered (w : World) : option decode_results :=
  (decode (irrecv w)).1.

(** The events added to the trace between [w] and a later [w']. *)
Definition since (w w' : World) : list Event :=
  drop (length (trace w)) (trace w').

Definition tx_calls (tr : list Event) : list TxCall :=
  flat_map (fun e => match e with IRsendCall c => [c] | _ => [] end) tr.

(** What [blinkled] leaves in the trace and on the receiver. *)
Fixpoint blink_trace (n : nat) (pin blink_delay : Z) : list Event :=
  match n with
  | O => []
  | S n' =>
      [DigitalWrite pin HIGH; Delay blink_delay;
       DigitalWrite led_pin LOW; Delay blink_delay]
        ++ blink_trace n' pin blink_delay
  end.

Fixpoint blink_recv (n : nat) (blink_delay : Z) (r : R) : R :=
  match n with
  | O => r
  | S n' => blink_recv n' blink_delay (elapse blink_delay (elapse blink_delay r))
  end.

Fixpoint blink_gpio (n : nat) (pin : Z) (g : gmap Z Z) : gmap Z Z :=
  match n with
  | O => g
  | S n' => blink_gpio n' pin (<[led_pin := LOW]> (<[pin := HIGH]> g))
  end.

(** One attempt of the waiting loop, seen from the receiver and in the
    trace. *)
Definition poll (r : R) : option decode_results * R := decode (elapse 500 r).

Fixpoint after_misses (k : nat) (r : R) : R :=
  match k with
  | O => r
  | S k' => after_misses k' (poll r).2
  end.

(** The answer of attempt number [k] (from 0) when none before it broke
    out of the loop. *)
Definition polled (k : nat) (r : R) : option decode_results :=
  (poll (after_misses k r)).1.

Definition first_hit (k : nat) (d : decode_results) (r : R) : Prop :=
  (forall j : nat, (j < k)%nat -> polled j r = None) /\ polled k r = Some d.

Definition attempt_events (got : bool) : list Event :=
  [SerialPrintln "waiting for signal..."; Delay 500; Decode got].

Fixpoint misses (k : nat) : list Event :=
  match k with
  | O => []
  | S k' => attempt_events false ++ misses k'
  end.

(** The receiver as the waiting loop finds it: armed, then the opening
    blink of two half-seconds. *)
Definition armed (r : R) : R := elapse 500 (elapse 500 (enableIRIn r)).

Definition arming_events : list Event :=
  [EnableIRIn; SerialPrintln "Recording IR-signal";
   DigitalWrite led_pin HIGH; Delay 500; DigitalWrite led_pin LOW; Delay 500;
   DigitalWrite led_pin HIGH].

(** How the record branch closes: after the loop it asks once more
    (line 175) and either gives up or confirms with five short pulses. *)
Definition timeout_events : list Event :=
  [Decode false; SerialPrintln "You took too long! Nothing recorded.";
   DigitalWrite led_pin LOW].

Definition captured_events (d : decode_results) : list Event :=
  [Decode true; SerialPrintln "Got results!";
   SerialPrint (resultToHumanReadableBasic d)] ++ blink_trace 5 led_pin 50.

(** What can happen to the receiver without arming it again: a poll or
    a wait. *)
Inductive RecvOp : Type :=
| OpDecode
| OpElapse (ms : Z).

Definition run_op (r : R) (o : RecvOp) : R :=
  match o with
  | OpDecode => (decode r).2
  | OpElapse ms => elapse ms r
  end.

(** A receiver that captures nothing more: whatever sequence of polls and
    waits is run on it, the next poll finds nothing. *)
Definition quiet (r : R) : Prop :=
  forall ops : list RecvOp, (decode (fold_left run_op ops r)).1 = None.

(** The transmitter call line 207-235 selects for a decode result. *)
Definition replay_call (d : decode_results) : TxCall :=
  if decode_type d =? UNKNOWN then
    TxRaw (resultToRawArray d) (getCorrectedRawLength d) kFrequency
  else if hasACState (decode_type d) then
    TxState (decode_type d) (state d) (bits d ÷ 8)
  else
    TxValue (decode_type d) (value d) (bits d).

Definition replay_calls (slot : option decode_results) : list TxCall :=
  match slot with
  | Some d => [replay_call d]
  | None => []
  end.

(** What the transmitter answers to that call and how it is left:
    [sendRaw] returns nothing and [success] keeps its initial [true]
    (line 203). *)
Definition engine_reply (d : decode_results) (t : T) : bool * T :=
  if decode_type d =? UNKNOWN then
    (true, sendRaw (resultToRawArray d) (getCorrectedRawLength d) kFrequency t)
  else if hasACState (decode_type d) then
    send_state (decode_type d) (state d) (bits d ÷ 8) t
  else
    send_value (decode_type d) (value d) (bits d) t.

Definition with_irsend (t : T) (w : World) : World :=
  mk_world (btn w) (results w) (irrecv w) t (gpio w) (trace w).

(** Events by which the two branches of [loop] are recognised in the
    trace: only the record branch arms the receiver; only the send branch
    prints one of its two headlines. *)
Definition is_record_marker (e : Event) : bool :=
  match e with
  | EnableIRIn => true
  | _ => false
  end.

Definition is_send_marker (e : Event) : bool :=
  match e with
  | SerialPrintln s =>
      (s =? "Sending IR-signal")%string
      || (s =? "Nothing to send. Capture something first.")%string
  | _ => false
  end.

(** The two tests of [loop] (lines 146, 192) and the sampled world. *)
Definition released (prev cur : Z) : bool := (prev =? LOW) && (cur =? HIGH).

Definition sample (read1 read2 : Z) (w : World) : World :=
  mk_world (mk_buttons read1 read2 (button1_prev (btn w)) (button2_prev (btn w)))
    (results w) (irrecv w) (irsend w) (gpio w) (trace w).

(** Successive iterations of [loop], one pair of button readings each. *)
Fixpoint loops (reads : list (Z * Z)) (w : World) : World :=
  match reads with
  | [] => w
  | (read1, read2) :: rest => loops rest (exec (loop read1 read2) w)
  end.

(** [n] send requests in a row; the transmitter calls of each, in order. *)
Fixpoint send_requests (n : nat) (w : World) : list (list TxCall) * World :=
  match n with
  | O => ([], w)
  | S n' =>
      let w1 := exec loop_send w in
      let (rest, w2) := send_requests n' w1 in
      (tx_calls (since w w1) :: rest, w2)
  end.

(** The three classes of a decode result, by the conditions of the
    [if] / [else if] / [else] of lines 207-235. *)
Inductive SignalClass : Type :=
| Unrecognized
| Stateful
| Stateless.

Definition in_class (k : SignalClass) (d : decode_results) : Prop :=
  match k with
  | Unrecognized => decode_type d = UNKNOWN
  | Stateful => decode_type d <> UNKNOWN /\ hasACState (decode_type d) = true
  | Stateless => decode_type d <> UNKNOWN /\ hasACState (decode_type d) = false
  end.

Definition call_class (c : TxCall) : SignalClass :=
  match c with
  | TxRaw _ _ _ => Unrecognized
  | TxState _ _ _ => Stateful
  | TxValue _ _ _ => Stateless
  end.

(** ** Measures on a trace *)

(** The milliseconds of [delay] in a trace. *)
Definition waited (tr : list Event) : Z :=
  fold_right (fun e acc => match e with Delay ms => ms + acc | _ => acc end)
    0 tr.

Definition count_events (f : Event -> bool) (tr : list Event) : nat :=
  length (List.filter f tr).

Definition is_poll (e : Event) : bool :=
  match e with
  | Decode _ => true
  | _ => false
  end.

(** The release edges in the successive readings of one button, [prev]
    being its level before the first of them. *)
Fixpoint release_edges (prev : Z) (reads : list Z) : nat :=
  match reads with
  | [] => 0
  | cur :: rest =>
      ((if released prev cur then 1 else 0) + release_edges cur rest)%nat
  end.

Definition edge_count (b : bool) : nat := if b then 1%nat else 0%nat.

End Sketch.

(** ** A reference board

    A small executable instance of the three interfaces, used to run the
    sketch on concrete inputs.  The receiver holds at most one message;
    messages on the air carry the time at which they are complete and are
    picked up by an armed, empty receiver when that time has passed. *)
Module Sim.

Record Receiver : Type := mk_receiver {
  is_armed : bool;
  held : option decode_results;
  clock : Z;
  air : list (Z * decode_results)
}.

Definition due (now : Z) (m : Z * decode_results) : bool := m.1 <=? now.

Definition sim_elapse (ms : Z) (r : Receiver) : Receiver :=
  let now := clock r + ms in
  let arrived := List.filter (due now) (air r) in
  let later := List.filter (fun m => negb (due now m)) (air r) in
  mk_receiver (is_armed r)
    (match held r with
     | Some d => Some d
     | None => if is_armed r then head (map snd arrived) else None
     end)
    now later.

#[global] Instance sim_recv : IRrecv Receiver := {
  enableIRIn r := mk_receiver true None (clock r) (air r);
  decode r := (held r, r);
  elapse := sim_elapse
}.

(** The transmitter is a script of the success flags it will return. *)
Definition Transmitter : Type := list bool.

Definition sim_send (t : Transmitter) : bool * Transmitter :=
  match t with
  | [] => (true, [])
  | ok :: t' => (ok, t')
  end.

#[global] Instance sim_send_engine : IRsend Transmitter := {
  sendRaw _ _ _ t := t;
  send_state _ _ _ t := sim_send t;
  send_value _ _ _ t := sim_send t
}.

Definition sim_human (d : decode_results) : string :=
  if decode_type d =? -1 then "Protocol  : UNKNOWN" else "Protocol  : known".

#[global] Instance sim_utils : IRutils := {
  UNKNOWN := -1;
  hasACState p := (p =? 16) || (p =? 18) || (p =? 20);
  resultToRawArray d := map (Z.mul 2) (tail (rawbuf d));
  getCorrectedRawLength d := Z.of_nat (length (tail (rawbuf d)));
  resultToHumanReadableBasic := sim_human
}.

Definition buttons0 : Buttons := mk_buttons HIGH HIGH HIGH HIGH.

Definition blank : decode_results := mk_results 0 0 0 [] [].

(** The board after [setup], with the given messages on the air and the
    given script for the transmitter. *)
Definition boot (msgs : list (Z * decode_results)) (script : list bool)
  : @World Receiver Transmitter :=
  mk_world buttons0 blank (mk_receiver false None 0 msgs) script
    {[ led_pin := LOW ]} [].

(** Sample messages: an unrecognised one with six raw timings, an NEC
    code (stateless), a Kelvinator state (stateful). *)
Definition msg_raw : decode_results :=
  mk_results (-1) 0 0 [] [0; 450; 220; 28; 28; 28; 83].

Definition msg_nec : decode_results :=
  mk_results 3 3735928559 32 [] [].

Definition msg_ac : decode_results :=
  mk_results 18 0 128 [25; 11; 128; 80; 4; 0; 0; 0; 25; 11; 128; 112; 4; 0; 0; 0] [].

(** The board holding [d]: armed at boot, [d] complete after 100 ms,
    picked up by a first half-second of waiting. *)
Definition holding (d : decode_results) (script : list bool)
  : @World Receiver Transmitter :=
  mk_world buttons0 blank
    (sim_elapse 500 (mk_receiver true None 0 [(100, d)])) script
    {[ led_pin := LOW ]} [].

End Sim.

(** * Properties *)

Section Properties.

Context {R T : Type} {recv : IRrecv R} {sender : IRsend T} {utils : IRutils}.

Local Abbreviation W := (@World R T).

(** ** Stepping through the monad *)

Lemma world_eta (w : W) :
  mk_world (btn w) (results w) (irrecv w) (irsend w) (gpio w) (trace w) = w.
Proof. destruct w; reflexivity. Qed.

Ltac step :=
  unfold bind, ret, Serial_println, Serial_print, digitalWrite, delay,
    irrecv_enableIRIn, irsend_sendRaw, get_results, get_buttons, set_buttons,
    emit; cbn [btn results irrecv irsend gpio trace fst snd].

Lemma blink_iter_spec (n : nat) (pin d : Z) (w : W) :
  blink_iter n pin d w =
  (tt, mk_world (btn w) (results w) (blink_recv n d (irrecv w)) (irsend w)
         (blink_gpio n pin (gpio w)) (trace w ++ blink_trace n pin d)).
Proof.
  revert w; induction n as [|n IH]; intros w.
  - cbn [blink_iter blink_recv blink_gpio blink_trace]. unfold ret.
    rewrite app_nil_r, world_eta. reflexivity.
  - cbn [blink_iter blink_recv blink_gpio blink_trace]. step.
    rewrite IH. cbn [btn results irrecv irsend gpio trace].
    rewrite <- !app_assoc. reflexivity.
Qed.

Lemma blinkled_spec (pin d m : Z) (w : W) :
  blinkled pin d m w =
  (tt, mk_world (btn w) (results w) (blink_recv (Z.to_nat m) d (irrecv w))
         (irsend w) (blink_gpio (Z.to_nat m) pin (gpio w))
         (trace w ++ blink_trace (Z.to_nat m) pin d)).
Proof. apply blink_iter_spec. Qed.

(** ** The waiting loop *)

Lemma after_misses_succ (k : nat) (r : R) :
  after_misses (S k) r = (poll (after_misses k r)).2.
Proof.
  revert r; induction k as [|k IH]; intros r.
  - reflexivity.
  - change (after_misses (S (S k)) r) with (after_misses (S k) (poll r).2).
    rewrite IH. reflexivity.
Qed.

Lemma polled_shift (j : nat) (r : R) :
  polled (S j) r = polled j (poll r).2.
Proof. reflexivity. Qed.

Lemma wait_miss (n : nat) (w : W) :
  (forall j : nat, (j < n)%nat -> polled j (irrecv w) = None) ->
  wait_for_signal n w =
  (tt, mk_world (btn w) (results w) (after_misses n (irrecv w)) (irsend w)
         (gpio w) (trace w ++ misses n)).
Proof.
  revert w; induction n as [|n IH]; intros w Hm.
  - cbn [wait_for_signal after_misses misses]. unfold ret.
    rewrite app_nil_r, world_eta. reflexivity.
  - cbn [wait_for_signal after_misses misses]. step. unfold irrecv_decode.
    cbn [btn results irrecv irsend gpio trace].
    pose proof (Hm O ltac:(lia)) as H0. unfold polled, poll in H0.
    cbn [after_misses] in H0. unfold poll.
    destruct (decode (elapse 500 (irrecv w))) as [o r1] eqn:E.
    cbn [fst] in H0. subst o. step.
    rewrite IH.
    + cbn [btn results irrecv irsend gpio trace snd].
      unfold attempt_events. rewrite <- !app_assoc. reflexivity.
    + intros j Hj. cbn [irrecv]. specialize (Hm (S j) ltac:(lia)).
      rewrite polled_shift in Hm.
        change (poll (irrecv w)) with (decode (elapse 500 (irrecv w))) in Hm.
      rewrite E in Hm. exact Hm.
Qed.

Lemma wait_hit (n k : nat) (d : decode_results) (w : W) :
  (k < n)%nat -> first_hit k d (irrecv w) ->
  wait_for_signal n w =
  (tt, mk_world (btn w) d (poll (after_misses k (irrecv w))).2 (irsend w)
         (gpio w) (trace w ++ misses k ++ attempt_events true)).
Proof.
  revert k w; induction n as [|n IH]; intros k w Hk [Hm Hd]; [lia|].
  cbn [wait_for_signal]. step. unfold irrecv_decode.
  cbn [btn results irrecv irsend gpio trace].
  destruct k as [|k].
  - unfold polled, poll in Hd. cbn [after_misses] in Hd.
    cbn [after_misses misses]. unfold poll.
    destruct (decode (elapse 500 (irrecv w))) as [o r1] eqn:E.
    cbn [fst] in Hd. subst o. step.
    unfold attempt_events. rewrite <- !app_assoc. reflexivity.
  - pose proof (Hm O ltac:(lia)) as H0. unfold polled, poll in H0.
    cbn [after_misses] in H0.
    cbn [after_misses misses]. unfold poll at 2.
    destruct (decode (elapse 500 (irrecv w))) as [o r1] eqn:E.
    cbn [fst] in H0. subst o. step.
    rewrite (IH k).
    + cbn [btn results irrecv irsend gpio trace snd].
      unfold attempt_events. rewrite <- !app_assoc. reflexivity.
    + lia.
    + cbn [irrecv]. split.
      * intros j Hj. specialize (Hm (S j) ltac:(lia)).
        rewrite polled_shift in Hm.
        change (poll (irrecv w)) with (decode (elapse 500 (irrecv w))) in Hm.
        rewrite E in Hm. exact Hm.
      * rewrite polled_shift in Hd.
        change (poll (irrecv w)) with (decode (elapse 500 (irrecv w))) in Hd.
        rewrite E in Hd. exact Hd.
Qed.

(** Within any budget there is a first attempt that finds a message, or
    none does. *)
Lemma first_hit_or_none (n : nat) (r : R) :
  (exists (k : nat) (d : decode_results), (k < n)%nat /\ first_hit k d r)
  \/ (forall j : nat, (j < n)%nat -> polled j r = None).
Proof.
  induction n as [|n IH].
  - right. intros j Hj. lia.
  - destruct IH as [(k & d & Hk & Hf)|Hnone].
    + left. exists k, d. split; [lia|exact Hf].
    + destruct (polled n r) as [d|] eqn:E.
      * left. exists n, d. split; [lia|]. split; assumption.
      * right. intros j Hj.
        destruct (decide (j = n)) as [->|Hne]; [exact E|].
        apply Hnone. lia.
Qed.

(** ** The record branch *)

Lemma blink_recv_keeps `{!IRrecvLaws R} (n : nat) (t : Z) (r : R)
    (d : decode_results) :
  (decode r).1 = Some d -> (decode (blink_recv n t r)).1 = Some d.
Proof.
  revert r; induction n as [|n IH]; intros r Hd; [exact Hd|].
  cbn [blink_recv]. apply IH. do 2 apply elapse_keeps. exact Hd.
Qed.

Lemma record_timeout `{!IRrecvLaws R} (w : W) :
  (forall j : nat, (j < 20)%nat -> polled j (armed (irrecv w)) = None) ->
  exec loop_record w =
  mk_world (btn w) (results w)
    (decode (after_misses 20 (armed (irrecv w)))).2 (irsend w)
    (<[led_pin := LOW]> (<[led_pin := HIGH]> (blink_gpio 1 led_pin (gpio w))))
    (trace w ++ arming_events ++ misses 20 ++ timeout_events).
Proof.
  intros Hm. unfold exec, loop_record. step.
  rewrite blinkled_spec. change (Z.to_nat 1) with 1%nat. step.
  rewrite wait_miss by exact Hm. step.
  unfold irrecv_decode. step.
  change (blink_recv 1 500 (enableIRIn (irrecv w))) with (armed (irrecv w)).
  assert (Hpost : (decode (after_misses 20 (armed (irrecv w)))).1 = None).
  { rewrite after_misses_succ. unfold poll. rewrite decode_again.
    apply (Hm 19%nat). lia. }
  destruct (decode (after_misses 20 (armed (irrecv w)))) as [o r1] eqn:E.
  cbn [fst] in Hpost. subst o. step.
  unfold arming_events, timeout_events. cbn [blink_trace].
  rewrite <- !app_assoc. reflexivity.
Qed.

Lemma record_hit `{!IRrecvLaws R} (w : W) (k : nat) (d : decode_results) :
  (k < 20)%nat -> first_hit k d (armed (irrecv w)) ->
  exec loop_record w =
  mk_world (btn w) d
    (blink_recv 5 50
       (decode (poll (after_misses k (armed (irrecv w)))).2).2) (irsend w)
    (blink_gpio 5 led_pin (<[led_pin := HIGH]> (blink_gpio 1 led_pin (gpio w))))
    (trace w ++ arming_events ++ misses k ++ attempt_events true
       ++ captured_events d).
Proof.
  intros Hk Hf. unfold exec, loop_record. step.
  rewrite blinkled_spec. change (Z.to_nat 1) with 1%nat. step.
  rewrite (wait_hit 20 k d) by assumption. step.
  unfold irrecv_decode. step.
  change (blink_recv 1 500 (enableIRIn (irrecv w))) with (armed (irrecv w)).
  assert (Hpost : (decode (poll (after_misses k (armed (irrecv w)))).2).1
                  = Some d).
  { unfold poll. rewrite decode_again. apply Hf. }
  destruct (decode (poll (after_misses k (armed (irrecv w)))).2)
    as [o r1] eqn:E.
  cbn [fst] in Hpost. subst o. step.
  rewrite blinkled_spec. change (Z.to_nat 5) with 5%nat. step.
  unfold arming_events, captured_events. cbn [blink_trace].
  rewrite <- !app_assoc. reflexivity.
Qed.

Lemma remembered_after_timeout `{!IRrecvLaws R} (w : W) :
  (forall j : nat, (j < 20)%nat -> polled j (armed (irrecv w)) = None) ->
  remembered (exec loop_record w) = None.
Proof.
  intros Hm. rewrite record_timeout by exact Hm.
  unfold remembered. cbn [irrecv]. rewrite decode_again.
  rewrite after_misses_succ. unfold poll. rewrite decode_again.
  apply (Hm 19%nat). lia.
Qed.

Lemma remembered_after_hit `{!IRrecvLaws R} (w : W) (k : nat)
    (d : decode_results) :
  (k < 20)%nat -> first_hit k d (armed (irrecv w)) ->
  remembered (exec loop_record w) = Some d.
Proof.
  intros Hk Hf. rewrite (record_hit w k d) by assumption.
  unfold remembered. cbn [irrecv]. apply blink_recv_keeps.
  rewrite decode_again. unfold poll. rewrite decode_again. apply Hf.
Qed.

Lemma since_app (w w' : W) (evs : list Event) :
  trace w' = trace w ++ evs -> since w w' = evs.
Proof. intros E. unfold since. rewrite E. apply drop_app_length. Qed.

(** C1. A capture arms the receiver and then makes attempts of the shape
    "print, wait 500, ask the receiver", at most 20 of them.  If attempt
    [k < 20] is the first to find a message [d], the loop stops after
    [k + 1] attempts and the remembered signal is [d]; if none of the 20
    attempts finds one, the remembered signal is empty.  One of the two
    always happens, so a capture succeeds exactly when some attempt within
    the budget finds a message. *)
Theorem capture_within_budget `{!IRrecvLaws R} (w : W) :
  let r0 := armed (irrecv w) in
  let w' := exec loop_record w in
  (forall (k : nat) (d : decode_results),
      (k < 20)%nat -> first_hit k d r0 ->
      since w w' = arming_events ++ misses k ++ attempt_events true
                     ++ captured_events d
      /\ remembered w' = Some d)
  /\ ((forall j : nat, (j < 20)%nat -> polled j r0 = None) ->
      since w w' = arming_events ++ misses 20 ++ timeout_events
      /\ remembered w' = None)
  /\ ((exists (k : nat) (d : decode_results), (k < 20)%nat /\ first_hit k d r0)
      \/ (forall j : nat, (j < 20)%nat -> polled j r0 = None))
  /\ (remembered w' <> None <->
      exists k : nat, (k < 20)%nat /\ polled k r0 <> None).
Proof.
  intros r0 w'. subst r0 w'.
  assert (Hhit : forall (k : nat) (d : decode_results),
             (k < 20)%nat -> first_hit k d (armed (irrecv w)) ->
             since w (exec loop_record w)
             = arming_events ++ misses k ++ attempt_events true
                 ++ captured_events d
             /\ remembered (exec loop_record w) = Some d).
  { intros k d Hk Hf. split.
    - apply since_app. rewrite (record_hit w k d) by assumption. reflexivity.
    - apply (remembered_after_hit w k d); assumption. }
  assert (Hout : (forall j : nat, (j < 20)%nat ->
                    polled j (armed (irrecv w)) = None) ->
             since w (exec loop_record w)
             = arming_events ++ misses 20 ++ timeout_events
             /\ remembered (exec loop_record w) = None).
  { intros Hm. split.
    - apply since_app. rewrite record_timeout by exact Hm. reflexivity.
    - apply remembered_after_timeout. exact Hm. }
  split; [exact Hhit|]. split; [exact Hout|].
  split; [apply first_hit_or_none|]. split.
  - intros Hne.
    destruct (first_hit_or_none 20 (armed (irrecv w)))
      as [(k & d & Hk & Hf)|Hm].
    + exists k. split; [exact Hk|]. destruct Hf as [_ Hd]. rewrite Hd. discriminate.
    + destruct (Hout Hm) as [_ He]. contradiction.
  - intros (k & Hk & Hp).
    destruct (first_hit_or_none 20 (armed (irrecv w)))
      as [(k' & d & Hk' & Hf)|Hm].
    + destruct (Hhit k' d Hk' Hf) as [_ Hr]. rewrite Hr. discriminate.
    + exfalso. apply Hp. apply Hm. exact Hk.
Qed.

(** C2. When none of the 20 attempts finds a message, whatever was
    remembered before the capture, the remembered signal is empty
    afterwards; after the last attempt the sketch only asks once more,
    prints its message and writes LOW to the lamp, which is then off: no
    pulses close the capture.  Buttons and transmitter are untouched. *)
Theorem capture_timeout_wipes `{!IRrecvLaws R} (w : W) :
  (forall j : nat, (j < 20)%nat -> polled j (armed (irrecv w)) = None) ->
  let w' := exec loop_record w in
  remembered w' = None
  /\ gpio w' !! led_pin = Some LOW
  /\ since w w' = arming_events ++ misses 20
       ++ [Decode false; SerialPrintln "You took too long! Nothing recorded.";
           DigitalWrite led_pin LOW]
  /\ btn w' = btn w /\ irsend w' = irsend w.
Proof.
  intros Hm w'. subst w'. split; [apply remembered_after_timeout; exact Hm|].
  rewrite record_timeout by exact Hm. cbn [gpio trace btn irsend].
  split; [apply lookup_insert_eq|]. split; [|split; reflexivity].
  apply since_app. reflexivity.
Qed.

(** ** The send branch *)

Lemma tx_calls_app (a b : list Event) :
  tx_calls (a ++ b) = tx_calls a ++ tx_calls b.
Proof. unfold tx_calls. apply flat_map_app. Qed.

Lemma tx_calls_blink (n : nat) (pin t : Z) : tx_calls (blink_trace n pin t) = [].
Proof. induction n as [|n IH]; [reflexivity|]. cbn. exact IH. Qed.

Lemma send_empty (w : W) :
  remembered w = None ->
  exec loop_send w =
  mk_world (btn w) (results w) (blink_recv 2 600 (decode (irrecv w)).2)
    (irsend w) (blink_gpio 2 led_pin (gpio w))
    (trace w ++ [Decode false;
                 SerialPrintln "Nothing to send. Capture something first."]
       ++ blink_trace 2 led_pin 600).
Proof.
  unfold remembered. intros He. unfold exec, loop_send. step.
  unfold irrecv_decode. destruct (decode (irrecv w)) as [o r1] eqn:E.
  cbn [fst] in He. subst o. step.
  rewrite blinkled_spec. change (Z.to_nat 2) with 2%nat. step.
  rewrite <- !app_assoc. reflexivity.
Qed.

Lemma send_held (w : W) (d : decode_results) :
  remembered w = Some d ->
  exec loop_send w =
  mk_world (btn w) d (blink_recv 3 30 (decode (irrecv w)).2)
    (engine_reply d (irsend w)).2 (blink_gpio 3 led_pin (gpio w))
    (trace w ++ [Decode true] ++ blink_trace 3 led_pin 30
       ++ [IRsendCall (replay_call d); SerialPrintln "Sending IR-signal";
           SerialPrint (resultToHumanReadableBasic d);
           SerialPrint (retransmitted_text (engine_reply d (irsend w)).1)]).
Proof.
  unfold remembered. intros He. unfold exec, loop_send. step.
  unfold irrecv_decode. destruct (decode (irrecv w)) as [o r1] eqn:E.
  cbn [fst] in He. subst o. step.
  rewrite blinkled_spec. change (Z.to_nat 3) with 3%nat. step.
  unfold replay_call, engine_reply.
  destruct (decode_type d =? UNKNOWN).
  - step. rewrite <- !app_assoc. reflexivity.
  - destruct (hasACState (decode_type d)).
    + unfold irsend_send_state. step.
      destruct (send_state (decode_type d) (state d) (bits d ÷ 8) (irsend w))
        as [ok t1]. step. rewrite <- !app_assoc. reflexivity.
    + unfold irsend_send_value. step.
      destruct (send_value (decode_type d) (value d) (bits d) (irsend w))
        as [ok t1]. step. rewrite <- !app_assoc. reflexivity.
Qed.

Lemma send_held_calls (w : W) (d : decode_results) :
  remembered w = Some d ->
  tx_calls (since w (exec loop_send w)) = [replay_call d].
Proof.
  intros Hd. rewrite (since_app w _ _ (f_equal trace (send_held w d Hd))).
  rewrite !tx_calls_app, tx_calls_blink. reflexivity.
Qed.

Lemma send_empty_calls (w : W) :
  remembered w = None -> tx_calls (since w (exec loop_send w)) = [].
Proof.
  intros He. rewrite (since_app w _ _ (f_equal trace (send_empty w He))).
  rewrite !tx_calls_app, tx_calls_blink. reflexivity.
Qed.

Lemma send_keeps_held `{!IRrecvLaws R} (w : W) (d : decode_results) :
  remembered w = Some d -> remembered (exec loop_send w) = Some d.
Proof.
  intros Hd. rewrite (send_held w d Hd). unfold remembered. cbn [irrecv].
  apply blink_recv_keeps. rewrite decode_again. exact Hd.
Qed.

(** ** A receiver that nothing reaches *)

Lemma quiet_now (r : R) : quiet r -> (decode r).1 = None.
Proof. intros Hq. apply (Hq []). Qed.

Lemma quiet_op (r : R) (o : RecvOp) : quiet r -> quiet (run_op r o).
Proof. intros Hq ops. apply (Hq (o :: ops)). Qed.

Lemma quiet_blink (n : nat) (t : Z) (r : R) :
  quiet r -> quiet (blink_recv n t r).
Proof.
  revert r; induction n as [|n IH]; intros r Hq; [exact Hq|].
  cbn [blink_recv]. apply IH.
  apply (quiet_op _ (OpElapse t)). apply (quiet_op _ (OpElapse t)). exact Hq.
Qed.

Lemma send_keeps_quiet (w : W) :
  quiet (irrecv w) -> quiet (irrecv (exec loop_send w)).
Proof.
  intros Hq. rewrite (send_empty w (quiet_now _ Hq)). cbn [irrecv].
  apply quiet_blink. apply (quiet_op _ OpDecode). exact Hq.
Qed.

Lemma send_requests_same `{!IRrecvLaws R} (n : nat) (w : W) :
  remembered w <> None \/ quiet (irrecv w) ->
  Forall (fun calls => calls = replay_calls (remembered w))
    (send_requests n w).1
  /\ length (send_requests n w).1 = n
  /\ remembered (send_requests n w).2 = remembered w.
Proof.
  revert w; induction n as [|n IH]; intros w Hw.
  - cbn. repeat split. constructor.
  - cbn [send_requests].
    assert (Hstep : tx_calls (since w (exec loop_send w))
                    = replay_calls (remembered w)
                    /\ remembered (exec loop_send w) = remembered w
                    /\ (remembered (exec loop_send w) <> None
                        \/ quiet (irrecv (exec loop_send w)))).
    { destruct Hw as [Hne|Hq].
      - destruct (remembered w) as [d|] eqn:Hd; [|contradiction].
        pose proof (send_keeps_held w d Hd) as Hk.
        split; [apply send_held_calls; exact Hd|].
        split; [exact Hk|]. left. rewrite Hk. discriminate.
      - pose proof (quiet_now _ Hq) as He. fold (remembered w) in He.
        pose proof (send_keeps_quiet w Hq) as Hq'.
        split; [rewrite He; apply send_empty_calls; exact He|].
        split; [|right; exact Hq'].
        rewrite He. apply (quiet_now _ Hq'). }
    destruct Hstep as (Hc & Hr & Hinv).
    specialize (IH (exec loop_send w) Hinv).
    destruct (send_requests n (exec loop_send w)) as [rest w2].
    cbn [fst snd length] in *. destruct IH as (IHa & IHl & IHr).
    rewrite Hr in IHa, IHr. repeat split.
    + constructor; assumption.
    + lia.
    + exact IHr.
Qed.


(** C4. A send request on an empty slot makes no transmitter call and
    leaves the transmitter as it was; what it does is ask the receiver,
    print one line and blink twice with 600 between the edges.  It returns
    normally, with buttons and [results] unchanged. *)
Theorem send_on_empty_is_noop (w : W) :
  remembered w = None ->
  let w' := exec loop_send w in
  tx_calls (since w w') = []
  /\ irsend w' = irsend w
  /\ since w w' =
       [Decode false;
        SerialPrintln "Nothing to send. Capture something first.";
        DigitalWrite led_pin HIGH; Delay 600; DigitalWrite led_pin LOW; Delay 600;
        DigitalWrite led_pin HIGH; Delay 600; DigitalWrite led_pin LOW; Delay 600]
  /\ btn w' = btn w /\ results w' = results w.
Proof.
  intros He w'. subst w'. split; [apply send_empty_calls; exact He|].
  rewrite (send_empty w He). cbn [irsend btn results].
  split; [reflexivity|]. split; [|split; reflexivity].
  apply since_app. reflexivity.
Qed.

(** C5. For every decode result exactly one of the three classes
    (unrecognised, stateful, stateless) applies, and a send request on it
    makes exactly one transmitter call, of the kind of that class. *)
Theorem classification_exactly_one (w : W) (d : decode_results) :
  remembered w = Some d ->
  (exists k : SignalClass,
      in_class k d /\ forall k' : SignalClass, in_class k' d -> k' = k)
  /\ (forall k : SignalClass, in_class k d ->
        exists c : TxCall,
          tx_calls (since w (exec loop_send w)) = [c] /\ call_class c = k).
Proof.
  intros Hd. rewrite (send_held_calls w d Hd). unfold replay_call.
  destruct (Z.eqb_spec (decode_type d) UNKNOWN) as [Hu|Hu].
  - split.
    + exists Unrecognized. split; [exact Hu|].
      intros [| |]; cbn; intros Hk; [reflexivity|destruct Hk; contradiction..].
    + intros [| |]; cbn; intros Hk; [|destruct Hk; contradiction..].
      eexists; split; reflexivity.
  - destruct (hasACState (decode_type d)) eqn:Hac.
    + split.
      * exists Stateful. split; [split; assumption|].
        intros [| |]; cbn; intros Hk; [contradiction|reflexivity|].
        destruct Hk; congruence.
      * intros [| |]; cbn; intros Hk; [contradiction| |destruct Hk; congruence].
        eexists; split; reflexivity.
    + split.
      * exists Stateless. split; [split; assumption|].
        intros [| |]; cbn; intros Hk; [contradiction| |reflexivity].
        destruct Hk; congruence.
      * intros [| |]; cbn; intros Hk; [contradiction|destruct Hk; congruence|].
        eexists; split; reflexivity.
Qed.

(** C6. A send request on a remembered signal of unknown protocol calls
    [sendRaw] once, with the raw array of the signal, its corrected length
    and 38000 Hz, and makes no other transmitter call. *)
Theorem send_raw_call (w : W) (d : decode_results) :
  remembered w = Some d -> decode_type d = UNKNOWN ->
  tx_calls (since w (exec loop_send w))
  = [TxRaw (resultToRawArray d) (getCorrectedRawLength d) 38000].
Proof.
  intros Hd Hu. rewrite (send_held_calls w d Hd). unfold replay_call.
  rewrite Hu, Z.eqb_refl. reflexivity.
Qed.

(** C7. A send request on a remembered signal of a known protocol makes
    one transmitter call: for a protocol with state, [send] with the
    protocol, the state bytes and the length [bits / 8]; otherwise [send]
    with the protocol, the value and the bit count. *)
Theorem send_classified_call (w : W) (d : decode_results) :
  remembered w = Some d -> decode_type d <> UNKNOWN ->
  (hasACState (decode_type d) = true ->
     tx_calls (since w (exec loop_send w))
     = [TxState (decode_type d) (state d) (bits d ÷ 8)])
  /\ (hasACState (decode_type d) = false ->
     tx_calls (since w (exec loop_send w))
     = [TxValue (decode_type d) (value d) (bits d)])
  /\ (0 <= bits d -> bits d ÷ 8 = bits d / 8).
Proof.
  intros Hd Hu. rewrite (send_held_calls w d Hd). unfold replay_call.
  destruct (Z.eqb_spec (decode_type d) UNKNOWN) as [Hu'|_]; [contradiction|].
  split; [intros ->; reflexivity|]. split; [intros ->; reflexivity|].
  intros Hb. apply Z.quot_div_nonneg; lia.
Qed.

(** C9. When the transmitter reports failure on a send, the remembered
    signal is what it was, the transmitter was called once, and the run
    differs from one in which the transmitter reports success only in the
    last line printed (and in the transmitter itself): buttons, [results],
    receiver and lamp are the same. *)
Theorem transmit_failure_contained `{!IRrecvLaws R} (w : W)
    (d : decode_results) :
  remembered w = Some d ->
  (engine_reply d (irsend w)).1 = false ->
  let w' := exec loop_send w in
  remembered w' = Some d
  /\ btn w' = btn w /\ results w' = d
  /\ tx_calls (since w w') = [replay_call d]
  /\ exists evs : list Event,
       since w w' = evs ++ [SerialPrint
         ("Message unsuccessfully retransmitted." ++ newline)%string]
       /\ forall t_ok : T,
           (engine_reply d t_ok).1 = true ->
           let v' := exec loop_send (with_irsend t_ok w) in
           since w v' = evs ++ [SerialPrint
             ("Message successfully retransmitted." ++ newline)%string]
           /\ btn v' = btn w' /\ results v' = results w'
           /\ irrecv v' = irrecv w' /\ gpio v' = gpio w'.
Proof.
  intros Hd Hf w'. subst w'.
  split; [apply send_keeps_held; exact Hd|].
  split; [rewrite (send_held w d Hd); reflexivity|].
  split; [rewrite (send_held w d Hd); reflexivity|].
  split; [apply send_held_calls; exact Hd|].
  exists ([Decode true] ++ blink_trace 3 led_pin 30
            ++ [IRsendCall (replay_call d); SerialPrintln "Sending IR-signal";
                SerialPrint (resultToHumanReadableBasic d)]).
  split.
  - apply since_app. rewrite (send_held w d Hd). cbn [trace]. rewrite Hf.
    rewrite <- !app_assoc. reflexivity.
  - intros t_ok Hok v'. subst v'.
    assert (Hd' : remembered (with_irsend t_ok w) = Some d) by exact Hd.
    rewrite (send_held _ d Hd'), (send_held w d Hd).
    unfold with_irsend. cbn [btn results irrecv irsend gpio trace]. rewrite Hok.
    split; [|repeat split].
    unfold since. cbn [trace]. rewrite drop_app_length.
    rewrite <- !app_assoc. reflexivity.
Qed.

(** C10. A send request on a remembered signal of unknown protocol ends,
    whatever the transmitter does, by printing that the message was
    successfully retransmitted: the flag printed is the initial [true]. *)
Theorem raw_replay_reports_success (w : W) (d : decode_results) :
  remembered w = Some d -> decode_type d = UNKNOWN ->
  (engine_reply d (irsend w)).1 = true
  /\ since w (exec loop_send w) =
     [Decode true] ++ blink_trace 3 led_pin 30
       ++ [IRsendCall (TxRaw (resultToRawArray d) (getCorrectedRawLength d)
                         kFrequency);
           SerialPrintln "Sending IR-signal";
           SerialPrint (resultToHumanReadableBasic d);
           SerialPrint ("Message successfully retransmitted." ++ newline)%string].
Proof.
  intros Hd Hu.
  assert (Hr : engine_reply d (irsend w)
               = (true, sendRaw (resultToRawArray d) (getCorrectedRawLength d)
                          kFrequency (irsend w))).
  { unfold engine_reply. rewrite Hu, Z.eqb_refl. reflexivity. }
  split; [rewrite Hr; reflexivity|].
  apply since_app. rewrite (send_held w d Hd). cbn [trace]. rewrite Hr.
  unfold replay_call. rewrite Hu, Z.eqb_refl. reflexivity.
Qed.

(** ** One iteration of [loop] *)

Lemma markers_blink (n : nat) (pin t : Z) :
  existsb is_send_marker (blink_trace n pin t) = false
  /\ existsb is_record_marker (blink_trace n pin t) = false.
Proof. induction n as [|n IH]; [split; reflexivity|]. cbn. exact IH. Qed.

Lemma wait_shape (n : nat) (w : W) :
  exists (res : decode_results) (r : R) (evs : list Event),
    wait_for_signal n w
    = (tt, mk_world (btn w) res r (irsend w) (gpio w) (trace w ++ evs))
    /\ existsb is_send_marker evs = false.
Proof.
  revert w; induction n as [|n IH]; intros w.
  - exists (results w), (irrecv w), []. cbn [wait_for_signal]. unfold ret.
    rewrite app_nil_r, world_eta. split; reflexivity.
  - cbn [wait_for_signal]. step. unfold irrecv_decode. step.
    destruct (decode (elapse 500 (irrecv w))) as [[d|] r1].
    + step. exists d, r1, (attempt_events true). split; [|reflexivity].
      unfold attempt_events. rewrite <- !app_assoc. reflexivity.
    + step.
      destruct (IH (mk_world (btn w) (results w) r1 (irsend w) (gpio w)
                      (((trace w ++ [SerialPrintln "waiting for signal..."])
                          ++ [Delay 500]) ++ [Decode false])))
        as (res & r & evs & E & Hm).
      rewrite E. cbn [btn results irrecv irsend gpio trace].
      exists res, r, (attempt_events false ++ evs). split.
      * unfold attempt_events. rewrite <- !app_assoc. reflexivity.
      * rewrite existsb_app, Hm. reflexivity.
Qed.

Lemma record_shape (w : W) :
  exists evs : list Event,
    trace (exec loop_record w) = trace w ++ EnableIRIn :: evs
    /\ existsb is_send_marker evs = false
    /\ btn (exec loop_record w) = btn w.
Proof.
  unfold exec, loop_record. step.
  rewrite blinkled_spec. change (Z.to_nat 1) with 1%nat. step.
  match goal with
  | |- context [wait_for_signal 20 ?w0] =>
      destruct (wait_shape 20 w0) as (res & r & evs & E & Hm); rewrite E
  end.
  step. unfold irrecv_decode. step.
  destruct (decode r) as [[d|] r1]; step.
  - rewrite blinkled_spec. change (Z.to_nat 5) with 5%nat. step.
    eexists. split; [rewrite <- !app_assoc; cbn [app]; reflexivity|].
    split; [|reflexivity].
    cbn. rewrite !existsb_app, Hm. reflexivity.
  - eexists. split; [rewrite <- !app_assoc; cbn [app]; reflexivity|].
    split; [|reflexivity].
    cbn. rewrite !existsb_app, Hm. reflexivity.
Qed.

Lemma send_shape (w : W) :
  exists evs : list Event,
    trace (exec loop_send w) = trace w ++ evs
    /\ existsb is_send_marker evs = true
    /\ existsb is_record_marker evs = false
    /\ btn (exec loop_send w) = btn w.
Proof.
  destruct (remembered w) as [d|] eqn:Hd.
  - rewrite (send_held w d Hd). cbn [trace btn]. eexists.
    split; [reflexivity|]. rewrite !existsb_app.
    rewrite (proj1 (markers_blink 3 led_pin 30)),
      (proj2 (markers_blink 3 led_pin 30)).
    repeat split.
  - rewrite (send_empty w Hd). cbn [trace btn]. eexists.
    split; [reflexivity|]. rewrite !existsb_app.
    rewrite (proj1 (markers_blink 2 led_pin 600)),
      (proj2 (markers_blink 2 led_pin 600)).
    repeat split.
Qed.

Lemma loop_unfold (d1 d2 : Z) (w : W) :
  exec (loop d1 d2) w =
  let w0 := sample d1 d2 w in
  let w1 := if released (button1_prev (btn w0)) (button1_state (btn w0))
            then exec loop_record w0 else w0 in
  let w2 := if released (button2_prev (btn w1)) (button2_state (btn w1))
            then exec loop_send w1 else w1 in
  mk_world (mk_buttons (button1_state (btn w2)) (button2_state (btn w2))
              (button1_state (btn w2)) (button2_state (btn w2)))
    (results w2) (irrecv w2) (irsend w2) (gpio w2) (trace w2).
Proof.
  unfold exec, loop, released, sample. step.
  cbn [button1_state button2_state button1_prev button2_prev].
  destruct ((button1_prev (btn w) =? LOW) && (d1 =? HIGH)).
  - destruct (loop_record _) as [u w1]. step.
    destruct ((button2_prev (btn w1) =? LOW) && (button2_state (btn w1) =? HIGH)).
    + destruct (loop_send w1) as [u' w2]. reflexivity.
    + reflexivity.
  - step. cbn [button1_state button2_state button1_prev button2_prev].
    destruct ((button2_prev (btn w) =? LOW) && (d2 =? HIGH)).
    + destruct (loop_send _) as [u' w2]. reflexivity.
    + reflexivity.
Qed.

Lemma released_iff (prev cur : Z) :
  released prev cur = true <-> prev = LOW /\ cur = HIGH.
Proof.
  unfold released. rewrite andb_true_iff, !Z.eqb_eq. reflexivity.
Qed.

(** C8. In every iteration of [loop], for each button on its own: the
    record branch runs exactly when button 1 was LOW (pressed) at the
    previous iteration and is read HIGH (released) now, the send branch
    exactly when the same holds of button 2; and at the end the previous
    level of each button is the level just read, whatever ran. *)
Theorem loop_release_edges (d1 d2 : Z) (w : W) :
  let w' := exec (loop d1 d2) w in
  (existsb is_record_marker (since w w') = true
     <-> button1_prev (btn w) = LOW /\ d1 = HIGH)
  /\ (existsb is_send_marker (since w w') = true
     <-> button2_prev (btn w) = LOW /\ d2 = HIGH)
  /\ button1_prev (btn w') = d1 /\ button2_prev (btn w') = d2.
Proof.
  intros w'. subst w'. rewrite loop_unfold. cbn zeta.
  set (w0 := sample d1 d2 w).
  assert (Ht0 : trace w0 = trace w ++ []) by (rewrite app_nil_r; reflexivity).
  change (button1_prev (btn w0)) with (button1_prev (btn w)).
  change (button1_state (btn w0)) with d1.
  rewrite <- (released_iff (button1_prev (btn w)) d1).
  rewrite <- (released_iff (button2_prev (btn w)) d2).
  destruct (released (button1_prev (btn w)) d1) eqn:E1.
  - destruct (record_shape w0) as (evs1 & Ht1 & Hm1 & Hb1).
    rewrite Hb1. change (button2_prev (btn w0)) with (button2_prev (btn w)).
    change (button2_state (btn w0)) with d2.
    change (button1_state (btn w0)) with d1.
    destruct (released (button2_prev (btn w)) d2) eqn:E2.
    + destruct (send_shape (exec loop_record w0)) as (evs2 & Ht2 & Hm2 & Hr2 & Hb2).
      rewrite Hb2, Hb1. cbn [btn button1_prev button2_prev].
      unfold since. cbn [trace]. rewrite Ht2, Ht1.
      change (trace w0) with (trace w). rewrite <- app_assoc, drop_app_length.
      rewrite !existsb_app, Hm2, orb_true_r. cbn [existsb is_record_marker orb].
      repeat split.
    + cbn [btn button1_prev button2_prev]. rewrite Hb1.
      unfold since. cbn [trace]. rewrite Ht1.
      change (trace w0) with (trace w). rewrite drop_app_length.
      cbn [existsb is_record_marker is_send_marker orb]. rewrite Hm1.
      repeat split; intros; try reflexivity; try discriminate.
  - change (button2_prev (btn w0)) with (button2_prev (btn w)).
    change (button2_state (btn w0)) with d2.
    destruct (released (button2_prev (btn w)) d2) eqn:E2.
    + destruct (send_shape w0) as (evs2 & Ht2 & Hm2 & Hr2 & Hb2).
      rewrite Hb2. cbn [btn button1_prev button2_prev].
      unfold since. cbn [trace]. rewrite Ht2.
      change (trace w0) with (trace w). rewrite drop_app_length.
      rewrite Hm2, Hr2. repeat split; intros; try reflexivity; try discriminate.
    + cbn [btn button1_prev button2_prev].
      unfold since. cbn [trace]. change (trace w0) with (trace w).
      rewrite drop_all.
      repeat split; intros; try reflexivity; try discriminate.
Qed.

(** * Further properties of the sketch *)

(** ** [blinkled] *)

Lemma waited_app (a b : list Event) : waited (a ++ b) = waited a + waited b.
Proof.
  induction a as [|e a IH]; [reflexivity|].
  cbn [app waited fold_right]. fold (waited (a ++ b)). fold (waited a).
  rewrite IH. destruct e; lia.
Qed.

Lemma count_events_app (f : Event -> bool) (a b : list Event) :
  count_events f (a ++ b) = (count_events f a + count_events f b)%nat.
Proof. unfold count_events. rewrite List.filter_app, length_app. reflexivity. Qed.

Lemma waited_blink (n : nat) (pin d : Z) :
  waited (blink_trace n pin d) = 2 * Z.of_nat n * d.
Proof.
  induction n as [|n IH]; [reflexivity|].
  cbn [blink_trace]. rewrite waited_app, IH, Nat2Z.inj_succ.
  cbn [waited fold_right]. ring.
Qed.

Lemma count_blink (f : Event -> bool) (n : nat) (pin d : Z) :
  (forall p l : Z, f (DigitalWrite p l) = false) ->
  (forall ms : Z, f (Delay ms) = false) ->
  count_events f (blink_trace n pin d) = 0%nat.
Proof.
  intros Hw Hd. induction n as [|n IH]; [reflexivity|].
  cbn [blink_trace]. rewrite count_events_app, IH.
  unfold count_events. cbn [List.filter]. rewrite !Hw, !Hd. reflexivity.
Qed.

Lemma blink_gpio_lookup (n : nat) (pin q : Z) (g : gmap Z Z) :
  blink_gpio n pin g !! q =
  match n with
  | O => g !! q
  | S _ => if decide (q = led_pin) then Some LOW
           else if decide (q = pin) then Some HIGH else g !! q
  end.
Proof.
  revert g; induction n as [|n IH]; intros g; [reflexivity|].
  cbn [blink_gpio]. rewrite IH. destruct n as [|n].
  - destruct (decide (q = led_pin)) as [->|Hl].
    + apply lookup_insert_eq.
    + rewrite lookup_insert_ne by congruence.
      destruct (decide (q = pin)) as [->|Hp].
      * apply lookup_insert_eq.
      * rewrite lookup_insert_ne by congruence. reflexivity.
  - destruct (decide (q = led_pin)) as [->|Hl]; [reflexivity|].
    destruct (decide (q = pin)) as [->|Hp]; [reflexivity|].
    rewrite !lookup_insert_ne by congruence. reflexivity.
Qed.

(** X1. With a multiplier of zero or less the loop of [blinkled] is not
    entered: the call changes nothing at all. *)
Theorem blinkled_nonpositive (pin d m : Z) (w : W) :
  m <= 0 -> blinkled pin d m w = (tt, w).
Proof.
  intros Hm. unfold blinkled. replace (Z.to_nat m) with 0%nat by lia.
  reflexivity.
Qed.

(** X2. For a [pin] that is a line number ([digitalWrite] takes it as a
    [uint8_t], so 0 to 255): after [blinkled] with a positive multiplier
    the lamp line [led_pin] is LOW.  The pulses are switched on through
    [pin] but off through [led_pin] (line 268), so a [pin] other than
    [led_pin] is left HIGH.  No other line changes. *)
Theorem blinkled_lines (pin d m q : Z) (w : W) :
  0 <= pin < 256 ->
  0 < m ->
  gpio (exec (blinkled pin d m) w) !! led_pin = Some LOW
  /\ (pin <> led_pin -> gpio (exec (blinkled pin d m) w) !! pin = Some HIGH)
  /\ (q <> led_pin -> q <> pin ->
      gpio (exec (blinkled pin d m) w) !! q = gpio w !! q).
Proof.
  intros _ Hm. unfold exec. rewrite blinkled_spec. cbn [snd gpio].
  rewrite !blink_gpio_lookup.
  destruct (Z.to_nat m) as [|n] eqn:E; [lia|].
  split; [|split].
  - destruct (decide (led_pin = led_pin)); [reflexivity|contradiction].
  - intros Hp. destruct (decide (pin = led_pin)); [contradiction|].
    destruct (decide (pin = pin)); [reflexivity|contradiction].
  - intros Hl Hp. destruct (decide (q = led_pin)); [contradiction|].
    destruct (decide (q = pin)); [contradiction|reflexivity].
Qed.

(** X3. For a [pin] that is a line number (0 to 255) and a
    [blink_delay] that is not negative (an [int] from 0 up, which [delay]
    takes unchanged as its [unsigned long]): [blinkled] waits
    [2 * multiplier * blink_delay] milliseconds in all (nothing for a
    multiplier below zero), switches [pin] on once per pulse, and touches
    neither the buttons, nor [results], nor the transmitter. *)
Theorem blinkled_duration (pin d m : Z) (w : W) :
  0 <= pin < 256 ->
  0 <= d <= 2147483647 ->
  let w' := exec (blinkled pin d m) w in
  waited (since w w') = 2 * Z.max 0 m * d
  /\ since w w' = blink_trace (Z.to_nat m) pin d
  /\ tx_calls (since w w') = []
  /\ btn w' = btn w /\ results w' = results w /\ irsend w' = irsend w.
Proof.
  intros _ _ w'. subst w'. unfold exec. rewrite blinkled_spec.
  cbn [snd btn results irsend].
  assert (Hs : since w
                 (mk_world (btn w) (results w)
                    (blink_recv (Z.to_nat m) d (irrecv w)) (irsend w)
                    (blink_gpio (Z.to_nat m) pin (gpio w))
                    (trace w ++ blink_trace (Z.to_nat m) pin d))
               = blink_trace (Z.to_nat m) pin d)
    by (apply since_app; reflexivity).
  rewrite Hs. rewrite waited_blink, tx_calls_blink.
  repeat split. f_equal. lia.
Qed.

Lemma blink_iter_add (a b : nat) (pin d : Z) (w : W) :
  blink_iter (a + b) pin d w
  = blink_iter b pin d (blink_iter a pin d w).2.
Proof.
  revert w; induction a as [|a IH]; intros w; [reflexivity|].
  cbn [Nat.add blink_iter]. step. apply IH.
Qed.

(** X4. Pulses add up: [blinkled] with [m1 + m2] pulses does what
    [blinkled] with [m1] pulses followed by [blinkled] with [m2] pulses
    does. *)
Theorem blinkled_add (pin d m1 m2 : Z) (w : W) :
  0 <= m1 -> 0 <= m2 ->
  exec (blinkled pin d (m1 + m2)) w
  = exec (blinkled pin d m2) (exec (blinkled pin d m1) w).
Proof.
  intros H1 H2. unfold exec, blinkled.
  rewrite Z2Nat.inj_add by assumption. rewrite blink_iter_add. reflexivity.
Qed.

(** ** The record branch, whatever the receiver does *)

Lemma wait_cases (n : nat) (w : W) :
  exists (k : nat) (hit : bool) (res : decode_results) (r : R),
    wait_for_signal n w
    = (tt, mk_world (btn w) res r (irsend w) (gpio w)
             (trace w ++ misses k
                ++ (if hit then attempt_events true else [])))
    /\ (if hit then (k < n)%nat else k = n).
Proof.
  revert w; induction n as [|n IH]; intros w.
  - exists 0%nat, false, (results w), (irrecv w). cbn [wait_for_signal misses].
    unfold ret. cbn [app]. rewrite app_nil_r, world_eta. split; reflexivity.
  - cbn [wait_for_signal]. step. unfold irrecv_decode. step.
    destruct (decode (elapse 500 (irrecv w))) as [[d|] r1].
    + step. exists 0%nat, true, d, r1. split; [|lia].
      unfold attempt_events. cbn [misses app]. rewrite <- !app_assoc.
      reflexivity.
    + step.
      destruct (IH (mk_world (btn w) (results w) r1 (irsend w) (gpio w)
                      (((trace w ++ [SerialPrintln "waiting for signal..."])
                          ++ [Delay 500]) ++ [Decode false])))
        as (k & hit & res & r & E & Hk).
      rewrite E. cbn [btn results irrecv irsend gpio trace].
      exists (S k), hit, res, r. split.
      * cbn [misses]. unfold attempt_events. rewrite <- !app_assoc.
        reflexivity.
      * destruct hit; lia.
Qed.

Lemma record_cases (w : W) :
  exists (k : nat) (hit : bool) (res : decode_results) (r : R)
         (closing : list Event) (g : gmap Z Z),
    exec loop_record w
    = mk_world (btn w) res r (irsend w) g
        (trace w ++ arming_events ++ misses k
           ++ (if hit then attempt_events true else []) ++ closing)
    /\ (if hit then (k < 20)%nat else k = 20%nat)
    /\ ((closing = captured_events res
         /\ g = blink_gpio 5 led_pin
                  (<[led_pin := HIGH]> (blink_gpio 1 led_pin (gpio w))))
        \/ (closing = timeout_events
            /\ g = <[led_pin := LOW]>
                     (<[led_pin := HIGH]> (blink_gpio 1 led_pin (gpio w))))).
Proof.
  unfold exec, loop_record. step.
  rewrite blinkled_spec. change (Z.to_nat 1) with 1%nat. step.
  match goal with
  | |- context [wait_for_signal 20 ?w0] =>
      destruct (wait_cases 20 w0) as (k & hit & res & r & E & Hk); rewrite E
  end.
  step. unfold irrecv_decode. step.
  destruct (decode r) as [[d|] r1]; step.
  - rewrite blinkled_spec. change (Z.to_nat 5) with 5%nat. step.
    exists k, hit, d, (blink_recv 5 50 r1), (captured_events d). eexists.
    split; [|split; [exact Hk|left; split; reflexivity]].
    unfold arming_events, captured_events. cbn [blink_trace].
    rewrite <- !app_assoc. reflexivity.
  - exists k, hit, res, r1, timeout_events. eexists.
    split; [|split; [exact Hk|right; split; reflexivity]].
    unfold arming_events, timeout_events. cbn [blink_trace].
    rewrite <- !app_assoc. reflexivity.
Qed.

Lemma waited_misses (k : nat) : waited (misses k) = 500 * Z.of_nat k.
Proof.
  induction k as [|k IH]; [reflexivity|].
  cbn [misses]. rewrite waited_app, IH, Nat2Z.inj_succ.
  cbn [waited fold_right attempt_events]. lia.
Qed.

Lemma polls_misses (k : nat) : count_events is_poll (misses k) = k.
Proof.
  induction k as [|k IH]; [reflexivity|].
  cbn [misses]. rewrite count_events_app, IH. reflexivity.
Qed.

Lemma count_misses (f : Event -> bool) (k : nat) :
  count_events f (attempt_events false) = 0%nat ->
  count_events f (misses k) = 0%nat.
Proof.
  intros Hf. induction k as [|k IH]; [reflexivity|].
  cbn [misses]. rewrite count_events_app, IH, Hf. reflexivity.
Qed.

Lemma tx_calls_misses (k : nat) : tx_calls (misses k) = [].
Proof.
  induction k as [|k IH]; [reflexivity|].
  cbn [misses]. rewrite tx_calls_app, IH. reflexivity.
Qed.

Lemma record_keeps_buttons (w : W) : btn (exec loop_record w) = btn w.
Proof.
  destruct (record_cases w) as (k & hit & res & r & closing & g & E & _).
  rewrite E. reflexivity.
Qed.

Lemma lamp_after_record (w : W) :
  gpio (exec loop_record w) !! led_pin = Some LOW.
Proof.
  destruct (record_cases w) as (k & hit & res & r & closing & g & E & Hk & Hc).
  rewrite E. cbn [gpio]. destruct Hc as [[_ ->]|[_ ->]].
  - rewrite blink_gpio_lookup.
    destruct (decide (led_pin = led_pin)); [reflexivity|contradiction].
  - apply lookup_insert_eq.
Qed.

(** X5. The record branch always comes back: whatever the receiver
    answers, it asks it at least twice and at most 21 times and spends
    between 1500 and 11500 ms in [delay]. *)
Theorem record_is_bounded (w : W) :
  let evs := since w (exec loop_record w) in
  1500 <= waited evs <= 11500
  /\ (2 <= count_events is_poll evs <= 21)%nat.
Proof.
  intros evs. subst evs.
  destruct (record_cases w) as (k & hit & res & r & closing & g & E & Hk & Hc).
  rewrite (since_app w _ _ (f_equal trace E)).
  rewrite !waited_app, !count_events_app, waited_misses, polls_misses.
  assert (Hw : (waited closing = 500 \/ waited closing = 0)
               /\ count_events is_poll closing = 1%nat).
  { destruct Hc as [[-> _]|[-> _]].
    - split; [left|]; reflexivity.
    - split; [right|]; reflexivity. }
  destruct Hw as [Hw Hp]. rewrite Hp.
  change (waited arming_events) with 1000.
  change (count_events is_poll arming_events) with 0%nat.
  destruct hit.
  - change (waited (attempt_events true)) with 500.
    change (count_events is_poll (attempt_events true)) with 1%nat.
    destruct Hw as [-> | ->]; lia.
  - change (waited []) with 0.
    change (count_events is_poll []) with 0%nat.
    destruct Hw as [-> | ->]; lia.
Qed.

(** X6. The record branch never calls the transmitter and leaves it,
    and the buttons, as they were, whatever the receiver answers. *)
Theorem record_never_transmits (w : W) :
  tx_calls (since w (exec loop_record w)) = []
  /\ irsend (exec loop_record w) = irsend w
  /\ btn (exec loop_record w) = btn w.
Proof.
  destruct (record_cases w) as (k & hit & res & r & closing & g & E & Hk & Hc).
  rewrite (since_app w _ _ (f_equal trace E)). rewrite E. cbn [irsend btn].
  split; [|split; reflexivity].
  rewrite !tx_calls_app, tx_calls_misses.
  assert (Hx : tx_calls closing = []).
  { destruct Hc as [[-> _]|[-> _]]; [|reflexivity].
    unfold captured_events. rewrite tx_calls_app, tx_calls_blink. reflexivity. }
  rewrite Hx. destruct hit; reflexivity.
Qed.

(** X7. The record branch ends with the lamp off, whether it captured
    or gave up and whatever the receiver answers. *)
Theorem record_ends_lamp_off (w : W) :
  gpio (exec loop_record w) !! led_pin = Some LOW.
Proof.
  apply lamp_after_record.
Qed.

(** X8. With a receiver that keeps the laws the time is exact: a capture
    whose attempt [k] is the first to find a message waits
    [2000 + 500 * k] ms and asks the receiver [k + 2] times (once more
    than it waits); a capture that gives up waits 11000 ms and asks 21
    times. *)
Theorem record_duration `{!IRrecvLaws R} (w : W) :
  (forall (k : nat) (d : decode_results),
      (k < 20)%nat -> first_hit k d (armed (irrecv w)) ->
      waited (since w (exec loop_record w)) = 2000 + 500 * Z.of_nat k
      /\ count_events is_poll (since w (exec loop_record w)) = (k + 2)%nat)
  /\ ((forall j : nat, (j < 20)%nat -> polled j (armed (irrecv w)) = None) ->
      waited (since w (exec loop_record w)) = 11000
      /\ count_events is_poll (since w (exec loop_record w)) = 21%nat).
Proof.
  split.
  - intros k d Hk Hf.
    rewrite (since_app w _ _ (f_equal trace (record_hit w k d Hk Hf))).
    rewrite !waited_app, !count_events_app, waited_misses, polls_misses.
    unfold captured_events.
    rewrite !waited_app, !count_events_app, waited_blink.
    rewrite (count_blink is_poll) by reflexivity.
    change (waited arming_events) with 1000.
    change (waited (attempt_events true)) with 500.
    change (count_events is_poll arming_events) with 0%nat.
    change (count_events is_poll (attempt_events true)) with 1%nat.
    cbn [waited fold_right count_events List.filter is_poll length].
    lia.
  - intros Hm.
    rewrite (since_app w _ _ (f_equal trace (record_timeout w Hm))).
    rewrite !waited_app, !count_events_app, waited_misses, polls_misses.
    split; reflexivity.
Qed.

(** X9. After a capture that found a message, [results] holds that
    message, and it still holds it after a send request that follows
    (which fills [results] from the receiver again). *)
Theorem record_results `{!IRrecvLaws R} (w : W) (k : nat)
    (d : decode_results) :
  (k < 20)%nat -> first_hit k d (armed (irrecv w)) ->
  results (exec loop_record w) = d
  /\ results (exec loop_send (exec loop_record w)) = d.
Proof.
  intros Hk Hf. split.
  - rewrite (record_hit w k d Hk Hf). reflexivity.
  - rewrite (send_held _ d (remembered_after_hit w k d Hk Hf)). reflexivity.
Qed.

(** X10. What is sent is what was captured: a send request after a
    capture that found [d] makes the one transmitter call [d] selects; a
    send request after a capture that gave up makes none, whatever was
    remembered before the capture. *)
Theorem sent_is_captured `{!IRrecvLaws R} (w : W) :
  let w1 := exec loop_record w in
  (forall (k : nat) (d : decode_results),
      (k < 20)%nat -> first_hit k d (armed (irrecv w)) ->
      tx_calls (since w1 (exec loop_send w1)) = [replay_call d])
  /\ ((forall j : nat, (j < 20)%nat -> polled j (armed (irrecv w)) = None) ->
      tx_calls (since w1 (exec loop_send w1)) = []).
Proof.
  intros w1. subst w1. split.
  - intros k d Hk Hf. apply send_held_calls.
    apply (remembered_after_hit w k d Hk Hf).
  - intros Hm. apply send_empty_calls. apply remembered_after_timeout.
    exact Hm.
Qed.

(** ** The send branch and whole iterations *)

Lemma lamp_after_send (w : W) :
  gpio (exec loop_send w) !! led_pin = Some LOW.
Proof.
  destruct (remembered w) as [d|] eqn:Hd.
  - rewrite (send_held w d Hd). cbn [gpio]. rewrite blink_gpio_lookup.
    reflexivity.
  - rewrite (send_empty w Hd). cbn [gpio]. rewrite blink_gpio_lookup.
    reflexivity.
Qed.

(** X11. A send request asks the receiver exactly once, waits 180 ms
    when it has something to send and 2400 ms when it has not, and ends
    with the lamp off. *)
Theorem send_duration (w : W) :
  let w' := exec loop_send w in
  waited (since w w') = match remembered w with Some _ => 180 | None => 2400 end
  /\ count_events is_poll (since w w') = 1%nat
  /\ gpio w' !! led_pin = Some LOW.
Proof.
  intros w'. subst w'. destruct (remembered w) as [d|] eqn:Hd.
  - rewrite (since_app w _ _ (f_equal trace (send_held w d Hd))).
    rewrite (send_held w d Hd). cbn [gpio].
    rewrite !waited_app, !count_events_app, waited_blink.
    rewrite (count_blink is_poll) by reflexivity.
    rewrite blink_gpio_lookup. repeat split.
  - rewrite (since_app w _ _ (f_equal trace (send_empty w Hd))).
    rewrite (send_empty w Hd). cbn [gpio].
    rewrite !waited_app, !count_events_app, waited_blink.
    rewrite (count_blink is_poll) by reflexivity.
    rewrite blink_gpio_lookup. repeat split.
Qed.

Lemma record_step (w : W) :
  exists evs : list Event,
    trace (exec loop_record w) = trace w ++ evs
    /\ count_events is_record_marker evs = 1%nat
    /\ count_events is_send_marker evs = 0%nat.
Proof.
  destruct (record_cases w) as (k & hit & res & r & closing & g & E & Hk & Hc).
  rewrite E. cbn [trace]. eexists. split; [reflexivity|].
  rewrite !count_events_app.
  rewrite (count_misses is_record_marker), (count_misses is_send_marker)
    by reflexivity.
  assert (Hx : count_events is_record_marker closing = 0%nat
               /\ count_events is_send_marker closing = 0%nat).
  { destruct Hc as [[-> _]|[-> _]]; [|split; reflexivity].
    unfold captured_events. rewrite !count_events_app.
    rewrite (count_blink is_record_marker), (count_blink is_send_marker)
      by reflexivity.
    split; reflexivity. }
  destruct Hx as [-> ->]. destruct hit; split; reflexivity.
Qed.

Lemma send_step (w : W) :
  exists evs : list Event,
    trace (exec loop_send w) = trace w ++ evs
    /\ count_events is_record_marker evs = 0%nat
    /\ count_events is_send_marker evs = 1%nat
    /\ btn (exec loop_send w) = btn w.
Proof.
  destruct (remembered w) as [d|] eqn:Hd.
  - rewrite (send_held w d Hd). cbn [trace btn]. eexists.
    split; [reflexivity|]. rewrite !count_events_app.
    rewrite (count_blink is_record_marker), (count_blink is_send_marker)
      by reflexivity.
    repeat split.
  - rewrite (send_empty w Hd). cbn [trace btn]. eexists.
    split; [reflexivity|]. rewrite !count_events_app.
    rewrite (count_blink is_record_marker), (count_blink is_send_marker)
      by reflexivity.
    repeat split.
Qed.

Lemma loop_step (d1 d2 : Z) (w : W) :
  exists evs : list Event,
    trace (exec (loop d1 d2) w) = trace w ++ evs
    /\ count_events is_record_marker evs
       = edge_count (released (button1_prev (btn w)) d1)
    /\ count_events is_send_marker evs
       = edge_count (released (button2_prev (btn w)) d2)
    /\ btn (exec (loop d1 d2) w) = mk_buttons d1 d2 d1 d2
    /\ (released (button1_prev (btn w)) d1 = true
        \/ released (button2_prev (btn w)) d2 = true ->
        gpio (exec (loop d1 d2) w) !! led_pin = Some LOW)
    /\ (released (button1_prev (btn w)) d1 = false ->
        released (button2_prev (btn w)) d2 = false ->
        exec (loop d1 d2) w
        = mk_world (mk_buttons d1 d2 d1 d2) (results w) (irrecv w) (irsend w)
            (gpio w) (trace w)).
Proof.
  rewrite loop_unfold. cbn zeta.
  set (w0 := sample d1 d2 w).
  change (button1_prev (btn w0)) with (button1_prev (btn w)).
  change (button1_state (btn w0)) with d1.
  destruct (released (button1_prev (btn w)) d1) eqn:E1.
  - destruct (record_step w0) as (evs1 & Ht1 & Hr1 & Hs1).
    pose proof (record_keeps_buttons w0) as Hb1.
    rewrite Hb1. change (button2_prev (btn w0)) with (button2_prev (btn w)).
    change (button2_state (btn w0)) with d2.
    change (button1_state (btn w0)) with d1.
    destruct (released (button2_prev (btn w)) d2) eqn:E2.
    + destruct (send_step (exec loop_record w0))
        as (evs2 & Ht2 & Hr2 & Hs2 & Hb2).
      rewrite Hb2, Hb1. cbn [btn trace gpio].
      exists (evs1 ++ evs2). rewrite Ht2, Ht1. change (trace w0) with (trace w).
      rewrite !count_events_app, Hr1, Hr2, Hs1, Hs2, <- app_assoc.
      repeat split; try discriminate.
      intros _. apply lamp_after_send.
    + cbn [btn trace gpio]. rewrite Hb1.
      exists evs1. rewrite Ht1. change (trace w0) with (trace w).
      rewrite Hr1, Hs1. repeat split; try discriminate.
      intros _. apply lamp_after_record.
  - change (button2_prev (btn w0)) with (button2_prev (btn w)).
    change (button2_state (btn w0)) with d2.
    destruct (released (button2_prev (btn w)) d2) eqn:E2.
    + destruct (send_step w0) as (evs2 & Ht2 & Hr2 & Hs2 & Hb2).
      rewrite Hb2. cbn [btn trace gpio].
      exists evs2. rewrite Ht2. change (trace w0) with (trace w).
      rewrite Hr2, Hs2. repeat split; try discriminate.
      intros _. apply lamp_after_send.
    + cbn [btn trace gpio results irrecv irsend].
      exists []. rewrite app_nil_r. repeat split.
      intros [H|H]; discriminate H.
Qed.

Lemma released_same (d : Z) : released d d = false.
Proof.
  unfold released. destruct (Z.eqb_spec d LOW) as [->|_]; reflexivity.
Qed.

Lemma released_false (prev cur : Z) :
  ~ (prev = LOW /\ cur = HIGH) -> released prev cur = false.
Proof.
  intros Hn. destruct (released prev cur) eqn:E; [|reflexivity].
  exfalso. apply Hn. apply released_iff. exact E.
Qed.

(** X12. An iteration in which neither button shows a release edge does
    nothing to the outside: no event, lamp, receiver, transmitter and
    [results] as before; only the button globals take the readings. *)
Theorem loop_without_edge (d1 d2 : Z) (w : W) :
  ~ (button1_prev (btn w) = LOW /\ d1 = HIGH) ->
  ~ (button2_prev (btn w) = LOW /\ d2 = HIGH) ->
  exec (loop d1 d2) w
  = mk_world (mk_buttons d1 d2 d1 d2) (results w) (irrecv w) (irsend w)
      (gpio w) (trace w).
Proof.
  intros H1 H2.
  destruct (loop_step d1 d2 w) as (_ & _ & _ & _ & _ & _ & Hidle).
  apply Hidle; apply released_false; assumption.
Qed.

(** X13. Reading the same levels again changes nothing: a second
    iteration with the readings of the first leaves the world exactly as
    the first left it, so a button that stays where it is cannot fire
    twice. *)
Theorem loop_same_readings (d1 d2 : Z) (w : W) :
  exec (loop d1 d2) (exec (loop d1 d2) w) = exec (loop d1 d2) w.
Proof.
  destruct (loop_step d1 d2 w) as (_ & _ & _ & _ & Hb & _).
  destruct (loop_step d1 d2 (exec (loop d1 d2) w))
    as (_ & _ & _ & _ & _ & _ & Hidle).
  rewrite Hidle.
  - rewrite <- Hb. apply world_eta.
  - rewrite Hb. apply released_same.
  - rewrite Hb. apply released_same.
Qed.

Lemma loops_step (reads : list (Z * Z)) (w : W) :
  exists evs : list Event,
    trace (loops reads w) = trace w ++ evs
    /\ count_events is_record_marker evs
       = release_edges (button1_prev (btn w)) (map fst reads)
    /\ count_events is_send_marker evs
       = release_edges (button2_prev (btn w)) (map snd reads).
Proof.
  revert w; induction reads as [|[d1 d2] reads IH]; intros w.
  - exists []. cbn. rewrite app_nil_r. repeat split.
  - cbn [loops map fst snd release_edges].
    destruct (loop_step d1 d2 w) as (evs1 & Ht1 & Hr1 & Hs1 & Hb1 & _).
    destruct (IH (exec (loop d1 d2) w)) as (evs2 & Ht2 & Hr2 & Hs2).
    rewrite Hb1 in Hr2, Hs2. cbn [button1_prev button2_prev] in Hr2, Hs2.
    exists (evs1 ++ evs2). rewrite Ht2, Ht1, <- app_assoc.
    rewrite !count_events_app, Hr1, Hr2, Hs1, Hs2.
    repeat split; destruct (released _ _); reflexivity.
Qed.

(** X14. Over any sequence of iterations the record branch runs once for
    each release edge in the readings of button 1 and the send branch once
    for each release edge in the readings of button 2: no edge is lost and
    none is served twice, however long a branch blocked in between. *)
Theorem loops_serve_each_edge (reads : list (Z * Z)) (w : W) :
  count_events is_record_marker (since w (loops reads w))
  = release_edges (button1_prev (btn w)) (map fst reads)
  /\ count_events is_send_marker (since w (loops reads w))
     = release_edges (button2_prev (btn w)) (map snd reads).
Proof.
  destruct (loops_step reads w) as (evs & Ht & Hr & Hs).
  rewrite (since_app w _ _ Ht). split; assumption.
Qed.

Lemma loop_keeps_lamp_off (d1 d2 : Z) (w : W) :
  gpio w !! led_pin = Some LOW ->
  gpio (exec (loop d1 d2) w) !! led_pin = Some LOW.
Proof.
  intros Hoff.
  destruct (loop_step d1 d2 w) as (_ & _ & _ & _ & _ & Hlow & Hidle).
  destruct (released (button1_prev (btn w)) d1) eqn:E1;
    [apply Hlow; left; reflexivity|].
  destruct (released (button2_prev (btn w)) d2) eqn:E2;
    [apply Hlow; right; reflexivity|].
  rewrite Hidle by reflexivity. exact Hoff.
Qed.

(** X15. The lamp is lit only inside a capture: if it is off before a
    sequence of iterations it is off after it, whatever the buttons and
    the receiver did. *)
Theorem lamp_off_between_iterations (reads : list (Z * Z)) (w : W) :
  gpio w !! led_pin = Some LOW ->
  gpio (loops reads w) !! led_pin = Some LOW.
Proof.
  revert w; induction reads as [|[d1 d2] reads IH]; intros w Hoff;
    [exact Hoff|].
  cbn [loops]. apply IH. apply loop_keeps_lamp_off. exact Hoff.
Qed.

(** X16. When both buttons show a release edge in the same iteration the
    capture runs first and the send request then transmits what it found:
    the iteration makes exactly the one transmitter call the captured
    message selects. *)
Theorem loop_both_edges `{!IRrecvLaws R} (d1 d2 : Z) (w : W) (k : nat)
    (d : decode_results) :
  button1_prev (btn w) = LOW -> d1 = HIGH ->
  button2_prev (btn w) = LOW -> d2 = HIGH ->
  (k < 20)%nat -> first_hit k d (armed (irrecv w)) ->
  tx_calls (since w (exec (loop d1 d2) w)) = [replay_call d].
Proof.
  intros Hp1 Hd1 Hp2 Hd2 Hk Hf. rewrite loop_unfold. cbn zeta.
  set (w0 := sample d1 d2 w).
  change (button1_prev (btn w0)) with (button1_prev (btn w)).
  change (button1_state (btn w0)) with d1.
  rewrite (proj2 (released_iff _ _) (conj Hp1 Hd1)).
  rewrite record_keeps_buttons.
  change (button2_prev (btn w0)) with (button2_prev (btn w)).
  change (button2_state (btn w0)) with d2.
  rewrite (proj2 (released_iff _ _) (conj Hp2 Hd2)).
  assert (Hf0 : first_hit k d (armed (irrecv w0))) by exact Hf.
  pose proof (remembered_after_hit w0 k d Hk Hf0) as Hr.
  unfold since. cbn [trace].
  rewrite (send_held _ d Hr). cbn [trace].
  rewrite (record_hit w0 k d Hk Hf0). cbn [trace].
  change (trace w0) with (trace w).
  rewrite <- !app_assoc, drop_app_length.
  unfold arming_events, captured_events.
  rewrite !tx_calls_app, tx_calls_misses, !tx_calls_blink. reflexivity.
Qed.

(** X17. The send branch never arms the receiver: it asks it once and
    otherwise only lets time pass, and it leaves the buttons alone. *)
Theorem send_never_arms (w : W) :
  count_events is_record_marker (since w (exec loop_send w)) = 0%nat
  /\ irrecv (exec loop_send w)
     = blink_recv (match remembered w with Some _ => 3 | None => 2 end)
         (match remembered w with Some _ => 30 | None => 600 end)
         (decode (irrecv w)).2
  /\ btn (exec loop_send w) = btn w.
Proof.
  destruct (send_step w) as (evs & Ht & Hr & _ & Hb).
  rewrite (since_app w _ _ Ht). split; [exact Hr|]. split; [|exact Hb].
  destruct (remembered w) as [d|] eqn:Hd.
  - rewrite (send_held w d Hd). reflexivity.
  - rewrite (send_empty w Hd). reflexivity.
Qed.

End Properties.

(** * The reference board runs the sketch *)

#[global] Instance sim_laws : IRrecvLaws Sim.Receiver.
Proof.
  constructor.
  - intros r. reflexivity.
  - intros t r d Hd. cbn in *. rewrite Hd. reflexivity.
  - intros r. reflexivity.
Qed.

Lemma sim_quiet (r : Sim.Receiver) :
  Sim.held r = None -> Sim.air r = [] -> quiet r.
Proof.
  intros Hh Ha ops. revert r Hh Ha.
  induction ops as [|o ops IH]; intros r Hh Ha; [exact Hh|].
  cbn [fold_left]. apply IH; destruct o; cbn; rewrite ?Hh, ?Ha; try reflexivity.
  destruct (Sim.is_armed r); reflexivity.
Qed.

(** ** Runs on the reference board *)

(** Scenario B: nothing on the air; the capture gives up after 20 attempts
    of 500 ms, the slot is empty and the lamp is off. *)
Example scenario_timeout :
  remembered (exec loop_record (Sim.boot [] [])) = None
  /\ gpio (exec loop_record (Sim.boot [] [])) !! led_pin = Some LOW
  /\ length (List.filter (fun e => match e with Delay 500 => true | _ => false end)
               (trace (exec loop_record (Sim.boot [] [])))) = 22%nat
  /\ length (List.filter (fun e => match e with Decode _ => true | _ => false end)
               (trace (exec loop_record (Sim.boot [] [])))) = 21%nat.
Proof. vm_compute. repeat split. Qed.

(** Button 1 pressed, held, released: only the release records. *)
Example press_hold_release :
  existsb is_record_marker
    (trace (loops [(LOW, HIGH)] (Sim.boot [] []))) = false
  /\ existsb is_record_marker
       (trace (loops [(LOW, HIGH); (LOW, HIGH)] (Sim.boot [] []))) = false
  /\ existsb is_record_marker
       (trace (loops [(LOW, HIGH); (LOW, HIGH); (HIGH, HIGH)] (Sim.boot [] [])))
     = true
  /\ btn (loops [(LOW, HIGH); (LOW, HIGH); (HIGH, HIGH)] (Sim.boot [] []))
     = mk_buttons HIGH HIGH HIGH HIGH.
Proof. vm_compute. repeat split. Qed.

(** Capture, then two sends in later iterations: Scenario C. *)
Example capture_then_send :
  tx_calls (trace (loops [(LOW, HIGH); (HIGH, LOW); (HIGH, HIGH);
                          (HIGH, LOW); (HIGH, HIGH)]
                     (Sim.boot [(1200, Sim.msg_nec)] [])))
  = [TxValue 3 3735928559 32; TxValue 3 3735928559 32].
Proof. vm_compute. reflexivity. Qed.

(** [blinkled] ends with the lamp off, also when driven through another pin. *)
Example blinkled_ends_off :
  gpio (exec (blinkled 2 10 3) (Sim.boot [] [])) !! led_pin = Some LOW
  /\ gpio (exec (blinkled 2 10 3) (Sim.boot [] [])) !! 2 = Some HIGH.
Proof. vm_compute. split; reflexivity. Qed.

(** Two send requests on an empty slot that nothing reaches. *)
Example empty_replay :
  Forall (fun calls => calls = []) (send_requests 2 (Sim.boot [] [])).1.
Proof.
  assert (Hq : quiet (irrecv (Sim.boot [] [])))
    by (apply sim_quiet; reflexivity).
  destruct (send_requests_same 2 (Sim.boot [] []) (or_intror Hq)) as [Hall _].
  exact Hall.
Qed.

(** Why repeated sends on an empty slot need a receiver that nothing
    reaches: the sketch never disarms the receiver, so after a capture that
    gave up, a message that comes late is still captured by the receiver,
    here during the blinking of a first send request, and the second send
    request transmits it. *)
Example late_message_is_replayed :
  remembered (exec loop_record (Sim.boot [(12000, Sim.msg_nec)] [])) = None
  /\ (send_requests 2 (exec loop_record (Sim.boot [(12000, Sim.msg_nec)] []))).1
     = [[]; [TxValue 3 3735928559 32]].
Proof. vm_compute. split; reflexivity. Qed.

(** Scenario A of the specification: the message is complete 2300 ms after
    boot, so the third attempt is the first to find it. *)
Lemma capture_within_budget_witness :
  first_hit 2 Sim.msg_raw (armed (irrecv (Sim.boot [(2300, Sim.msg_raw)] [])))
  /\ since (Sim.boot [(2300, Sim.msg_raw)] [])
       (exec loop_record (Sim.boot [(2300, Sim.msg_raw)] []))
     = arming_events ++ misses 2 ++ attempt_events true
         ++ captured_events Sim.msg_raw
  /\ remembered (exec loop_record (Sim.boot [(2300, Sim.msg_raw)] []))
     = Some Sim.msg_raw.
Proof.
  assert (Hf : first_hit 2 Sim.msg_raw
                 (armed (irrecv (Sim.boot [(2300, Sim.msg_raw)] [])))).
  { split; [|reflexivity].
    intros j Hj. destruct j as [|[|j]]; [reflexivity|reflexivity|lia]. }
  split; [exact Hf|].
  apply (capture_within_budget (Sim.boot [(2300, Sim.msg_raw)] []));
    [lia|exact Hf].
Defined.

Lemma sim_nothing_arrives (n : nat) (d : decode_results) (j : nat) :
  (j < n)%nat -> polled j (armed (irrecv (Sim.holding d []))) = None.
Proof.
  intros _. unfold polled.
  assert (Hinv : forall (k : nat) (r : Sim.Receiver),
             Sim.held r = None -> Sim.air r = [] ->
             Sim.held (after_misses k r) = None
             /\ Sim.air (after_misses k r) = []).
  { induction k as [|k IH]; intros r Hh Ha; [split; assumption|].
    cbn [after_misses]. apply IH; cbn; rewrite ?Hh, ?Ha; try reflexivity.
    destruct (Sim.is_armed r); reflexivity. }
  destruct (Hinv j (armed (irrecv (Sim.holding d [])))) as [Hh Ha];
    [reflexivity|reflexivity|].
  set (x := after_misses j (armed (irrecv (Sim.holding d [])))) in *.
  change (Sim.held (Sim.sim_elapse 500 x) = None).
  unfold Sim.sim_elapse. cbn [Sim.held]. rewrite Hh, Ha.
  destruct (Sim.is_armed x); reflexivity.
Qed.

(** A board that holds the NEC code and hears nothing during the capture:
    the code is gone afterwards and the lamp is off. *)
Lemma capture_timeout_wipes_witness :
  remembered (Sim.holding Sim.msg_nec []) = Some Sim.msg_nec
  /\ remembered (exec loop_record (Sim.holding Sim.msg_nec [])) = None
  /\ gpio (exec loop_record (Sim.holding Sim.msg_nec [])) !! led_pin = Some LOW.
Proof.
  split; [reflexivity|].
  destruct (capture_timeout_wipes (Sim.holding Sim.msg_nec [])
              (sim_nothing_arrives 20 Sim.msg_nec)) as (Hr & Hg & _).
  split; [exact Hr|exact Hg].
Defined.



(** Scenario D: a send request right after boot. *)
Lemma send_on_empty_is_noop_witness :
  remembered (Sim.boot [] []) = None
  /\ tx_calls (since (Sim.boot [] []) (exec loop_send (Sim.boot [] []))) = []
  /\ irsend (exec loop_send (Sim.boot [] [])) = irsend (Sim.boot [] []).
Proof.
  split; [reflexivity|].
  destruct (send_on_empty_is_noop (recv := Sim.sim_recv) (utils := Sim.sim_utils)
              (Sim.boot [] []) eq_refl) as (Hc & Hs & _).
  split; [exact Hc|exact Hs].
Defined.

Lemma classification_exactly_one_witness :
  remembered (Sim.holding Sim.msg_ac []) = Some Sim.msg_ac
  /\ in_class Stateful Sim.msg_ac
  /\ exists c : TxCall,
       tx_calls (since (Sim.holding Sim.msg_ac [])
                   (exec loop_send (Sim.holding Sim.msg_ac []))) = [c]
       /\ call_class c = Stateful.
Proof.
  assert (Hk : in_class Stateful Sim.msg_ac).
  { split; [discriminate|reflexivity]. }
  split; [reflexivity|]. split; [exact Hk|].
  destruct (classification_exactly_one (recv := Sim.sim_recv) (utils := Sim.sim_utils)
              (Sim.holding Sim.msg_ac []) Sim.msg_ac
              eq_refl) as [_ Hcall].
  exact (Hcall Stateful Hk).
Defined.

Lemma send_raw_call_witness :
  remembered (Sim.holding Sim.msg_raw []) = Some Sim.msg_raw
  /\ decode_type Sim.msg_raw = UNKNOWN
  /\ tx_calls (since (Sim.holding Sim.msg_raw [])
                 (exec loop_send (Sim.holding Sim.msg_raw [])))
     = [TxRaw [900; 440; 56; 56; 56; 166] 6 38000].
Proof.
  split; [reflexivity|]. split; [reflexivity|].
  exact (send_raw_call (recv := Sim.sim_recv) (utils := Sim.sim_utils)
              (Sim.holding Sim.msg_raw []) Sim.msg_raw eq_refl eq_refl).
Defined.

(** Scenario C (numeric path) and its stateful counterpart. *)
Lemma send_classified_call_witness :
  remembered (Sim.holding Sim.msg_nec []) = Some Sim.msg_nec
  /\ decode_type Sim.msg_nec <> UNKNOWN
  /\ tx_calls (since (Sim.holding Sim.msg_nec [])
                 (exec loop_send (Sim.holding Sim.msg_nec [])))
     = [TxValue 3 3735928559 32].
Proof.
  assert (Hu : decode_type Sim.msg_nec <> UNKNOWN) by discriminate.
  split; [reflexivity|]. split; [exact Hu|].
  destruct (send_classified_call (recv := Sim.sim_recv) (utils := Sim.sim_utils)
              (Sim.holding Sim.msg_nec []) Sim.msg_nec
              eq_refl Hu) as (_ & Hv & _).
  exact (Hv eq_refl).
Defined.

Lemma transmit_failure_contained_witness :
  remembered (Sim.holding Sim.msg_nec [false]) = Some Sim.msg_nec
  /\ (engine_reply Sim.msg_nec (irsend (Sim.holding Sim.msg_nec [false]))).1
     = false
  /\ remembered (exec loop_send (Sim.holding Sim.msg_nec [false]))
     = Some Sim.msg_nec
  /\ tx_calls (since (Sim.holding Sim.msg_nec [false])
                 (exec loop_send (Sim.holding Sim.msg_nec [false])))
     = [TxValue 3 3735928559 32].
Proof.
  split; [reflexivity|]. split; [reflexivity|].
  destruct (transmit_failure_contained (recv := Sim.sim_recv)
              (sender := Sim.sim_send_engine) (utils := Sim.sim_utils)
              (Sim.holding Sim.msg_nec [false])
              Sim.msg_nec eq_refl eq_refl) as (Hr & _ & _ & Hc & _).
  split; [exact Hr|exact Hc].
Defined.

Lemma raw_replay_reports_success_witness :
  remembered (Sim.holding Sim.msg_raw [false]) = Some Sim.msg_raw
  /\ decode_type Sim.msg_raw = UNKNOWN
  /\ last (since (Sim.holding Sim.msg_raw [false])
             (exec loop_send (Sim.holding Sim.msg_raw [false])))
     = Some (SerialPrint
               ("Message successfully retransmitted." ++ newline)%string).
Proof.
  split; [reflexivity|]. split; [reflexivity|].
  destruct (raw_replay_reports_success (recv := Sim.sim_recv) (utils := Sim.sim_utils)
              (Sim.holding Sim.msg_raw [false])
              Sim.msg_raw eq_refl eq_refl) as [_ Hs].
  rewrite Hs. reflexivity.
Defined.

(** ** Runs of the further properties *)

Lemma blinkled_nonpositive_witness :
  -3 <= 0
  /\ blinkled led_pin 500 (-3) (Sim.boot [] []) = (tt, Sim.boot [] []).
Proof.
  split; [lia|]. apply blinkled_nonpositive. lia.
Defined.

Lemma blinkled_lines_witness :
  0 < 3
  /\ gpio (exec (blinkled 2 10 3) (Sim.boot [] [])) !! led_pin = Some LOW
  /\ gpio (exec (blinkled 2 10 3) (Sim.boot [] [])) !! 2 = Some HIGH
  /\ gpio (exec (blinkled 2 10 3) (Sim.boot [] [])) !! 7
     = gpio (Sim.boot [] []) !! 7.
Proof.
  assert (Hm : 0 < 3) by lia.
  assert (Hpin : 0 <= 2 < 256) by lia.
  destruct (blinkled_lines 2 10 3 7 (Sim.boot [] []) Hpin Hm)
    as (Hl & Hp & Hq).
  split; [exact Hm|]. split; [exact Hl|]. split.
  - apply Hp. discriminate.
  - apply Hq; discriminate.
Defined.

Lemma blinkled_duration_witness :
  waited (since (Sim.boot [] []) (exec (blinkled led_pin 30 3) (Sim.boot [] [])))
  = 2 * Z.max 0 3 * 30
  /\ tx_calls (since (Sim.boot [] [])
                 (exec (blinkled led_pin 30 3) (Sim.boot [] []))) = [].
Proof.
  destruct (blinkled_duration led_pin 30 3 (Sim.boot [] []))
    as (Hw & _ & Hx & _); [unfold led_pin; lia|lia|].
  split; [exact Hw|exact Hx].
Defined.

Lemma blinkled_add_witness :
  exec (blinkled led_pin 30 (2 + 3)) (Sim.boot [] [])
  = exec (blinkled led_pin 30 3) (exec (blinkled led_pin 30 2) (Sim.boot [] [])).
Proof.
  apply blinkled_add; lia.
Defined.

Lemma sim_third_attempt (d : decode_results) :
  first_hit 2 d (armed (irrecv (Sim.boot [(2300, d)] []))).
Proof.
  split; [|reflexivity].
  intros j Hj. destruct j as [|[|j]]; [reflexivity|reflexivity|lia].
Qed.

Lemma record_duration_witness :
  waited (since (Sim.boot [(2300, Sim.msg_raw)] [])
            (exec loop_record (Sim.boot [(2300, Sim.msg_raw)] [])))
  = 2000 + 500 * Z.of_nat 2
  /\ count_events is_poll
       (since (Sim.boot [(2300, Sim.msg_raw)] [])
          (exec loop_record (Sim.boot [(2300, Sim.msg_raw)] [])))
     = (2 + 2)%nat.
Proof.
  apply (proj1 (record_duration (Sim.boot [(2300, Sim.msg_raw)] [])) 2%nat
           Sim.msg_raw); [lia|apply sim_third_attempt].
Defined.

Lemma record_results_witness :
  results (exec loop_record (Sim.boot [(2300, Sim.msg_raw)] [])) = Sim.msg_raw
  /\ results (exec loop_send
                (exec loop_record (Sim.boot [(2300, Sim.msg_raw)] [])))
     = Sim.msg_raw.
Proof.
  apply (record_results (Sim.boot [(2300, Sim.msg_raw)] []) 2%nat Sim.msg_raw);
    [lia|apply sim_third_attempt].
Defined.

Lemma sent_is_captured_witness :
  tx_calls (since (exec loop_record (Sim.boot [(2300, Sim.msg_nec)] []))
              (exec loop_send
                 (exec loop_record (Sim.boot [(2300, Sim.msg_nec)] []))))
  = [replay_call Sim.msg_nec]
  /\ tx_calls (since (exec loop_record (Sim.holding Sim.msg_nec []))
                 (exec loop_send
                    (exec loop_record (Sim.holding Sim.msg_nec []))))
     = [].
Proof.
  split.
  - apply (proj1 (sent_is_captured (Sim.boot [(2300, Sim.msg_nec)] [])) 2%nat
             Sim.msg_nec); [lia|apply sim_third_attempt].
  - apply (proj2 (sent_is_captured (Sim.holding Sim.msg_nec []))).
    apply (sim_nothing_arrives 20).
Defined.

(** Button 1 pressed right after boot: a press is not a release. *)
Lemma loop_without_edge_witness :
  exec (loop LOW HIGH) (Sim.boot [(2300, Sim.msg_nec)] [true])
  = mk_world (mk_buttons LOW HIGH LOW HIGH) Sim.blank
      (Sim.mk_receiver false None 0 [(2300, Sim.msg_nec)]) [true]
      {[ led_pin := LOW ]} [].
Proof.
  apply (loop_without_edge LOW HIGH (Sim.boot [(2300, Sim.msg_nec)] [true])).
  - intros [Hp _]. discriminate Hp.
  - intros [Hp _]. discriminate Hp.
Defined.

(** Press and release of button 1, then of button 2, with a message on
    the air: the lamp is off at the end. *)
Lemma lamp_off_between_iterations_witness :
  gpio (loops [(LOW, HIGH); (HIGH, LOW); (HIGH, HIGH)]
          (Sim.boot [(2300, Sim.msg_nec)] [])) !! led_pin = Some LOW.
Proof.
  apply lamp_off_between_iterations. reflexivity.
Defined.

(** Both buttons held at boot and released together. *)
Lemma loop_both_edges_witness :
  tx_calls
    (since (exec (loop LOW LOW) (Sim.boot [(2300, Sim.msg_nec)] []))
       (exec (loop HIGH HIGH)
          (exec (loop LOW LOW) (Sim.boot [(2300, Sim.msg_nec)] []))))
  = [replay_call Sim.msg_nec].
Proof.
  apply (loop_both_edges HIGH HIGH
           (exec (loop LOW LOW) (Sim.boot [(2300, Sim.msg_nec)] []))
           2%nat Sim.msg_nec); try reflexivity; [lia|].
  apply (sim_third_attempt Sim.msg_nec).
Defined.
